(** * Project 2 - Manufacturing: a discrete-event simulation of a production line

    Shallow embedding of [Project 2-Manufacturing.cpp] and the properties of
    its event queue, resource accounting, stage machine and driver loop.

    Modelling conventions.
    - [double] is idealised as an exact rational ([Q]); every literal of the
      source (2.0, 1.5, 0.5, 0.75, 5.0, 1000.0, ...) is dyadic, and only sums
      and comparisons of times are ever taken.
    - [int] is a 32-bit two's-complement integer carried as a [Z]; [++] and
      [--] are written with their wrap-around ([Int.incr], [Int.decr]).
    - [std::map<std::string, V>] is a [gmap string V]; [operator[]] inserts a
      value-initialised entry when the key is absent ([map_touch]).
    - [std::priority_queue<Event, std::vector<Event>, std::greater<Event>>] is
      the underlying vector as a [list Event], with [push_heap] / [pop_heap]
      as the standard library implements them (sift-up on push; on pop the
      hole is percolated to a leaf and the last element sifted up from there).
    - A [std::function<void()>] closure is the tagged value [Action] naming the
      lambda of the source and carrying what that lambda captures by value.
    - [std::default_random_engine] with [std::exponential_distribution] is a
      parameter of the development: a state type [G] and a sampling step.
    - [std::cout] is the list [console] of the lines written so far. *)

From Stdlib Require Import ZArith QArith Lia.
From stdpp Require Import gmap strings list fin_maps.

Open Scope Z_scope.

(** ** Machine integers *)

Module Int.

Definition max_int : Z := 2147483647.
Definition min_int : Z := -2147483648.

(** Reduction of a mathematical integer to the range of [int]. *)
Definition wrap (z : Z) : Z := (z + 2147483648) mod 4294967296 - 2147483648.

Definition incr (z : Z) : Z := wrap (z + 1).
Definition decr (z : Z) : Z := wrap (z - 1).

(** Conversion of an [int] to [size_t], as in the comparison of
    [intermediateStage] with [vector::size()]. *)
Definition to_size_t (z : Z) : Z := z mod 18446744073709551616.

(** [static_cast<unsigned>] of a [time_t]. *)
Definition to_unsigned (z : Z) : Z := z mod 4294967296.

End Int.

(** ** Maps with [operator[]] *)

(** The value [m[k]] evaluates to: the stored one, or the value-initialised
    default [d]. *)
Definition map_at {V : Type} (d : V) (m : gmap string V) (k : string) : V :=
  default d (m !! k).

(** The map after evaluating [m[k]]: an absent key is inserted with [d]. *)
Definition map_touch {V : Type} (d : V) (m : gmap string V) (k : string) : gmap string V :=
  match m !! k with
  | Some _ => m
  | None => <[k := d]> m
  end.

(** ** Events *)

Record Product := {
  ptype : string;            (* Product::type *)
  intermediateStage : Z
}.

(** The lambdas handed to [scheduleEvent], with their captures. *)
Inductive Action :=
| ActRawMaterialArrival (productType : string)
    (* [this, productType] { handleRawMaterialArrival(productType); } *)
| ActSetup (product : Product) (processTime : Q) (stage : string)
    (* [this, product, processTime, stage] { usage += ...; scheduleEvent(...); } *)
| ActCompleteStage (product : Product)
    (* [this, product] { completeStage(product); } *)
| ActMaintenance (resource : string)
    (* [this, resource] { handleMaintenance(resource); } *)
| ActShiftChange.
    (* [this] { handleShiftChange(); } *)

Record Event := {
  time : Q;
  type : string;
  action : Action
}.

(** [Event::operator>]: compares the times only. *)
Definition Event_gt (a other : Event) : bool :=
  negb (Qle_bool (time a) (time other)).

(** ** The event queue

    [std::priority_queue<Event, std::vector<Event>, std::greater<Event>>]:
    the vector [c] holds a binary heap whose root [c.front()] is an event of
    least time.  [push] is [c.push_back(x); std::push_heap(c.begin(), c.end(), comp)]
    and [pop] is [std::pop_heap(c.begin(), c.end(), comp); c.pop_back()], with
    [comp = std::greater<Event>], that is [Event::operator>]. *)

Module PQ.

Local Open Scope nat_scope.

(** [*(first + i)]; the default [d] is returned only out of range. *)
Definition rd (first : list Event) (i : nat) (d : Event) : Event :=
  default d (first !! i).

(** [std::__push_heap(first, holeIndex, topIndex, value, comp)]:
<<
    parent = (holeIndex - 1) / 2;
    while (holeIndex > topIndex && comp(first + parent, value)) {
      *(first + holeIndex) = *(first + parent);
      holeIndex = parent;
      parent = (holeIndex - 1) / 2;
    }
    *(first + holeIndex) = value;
>>
    The loop is unrolled [fuel] times; [holeIndex] iterations always suffice
    since the hole index strictly decreases. *)
Fixpoint push_heap_loop (fuel : nat) (first : list Event)
    (holeIndex topIndex : nat) (value : Event) : list Event :=
  let parent := (holeIndex - 1) / 2 in
  match fuel with
  | O => <[holeIndex := value]> first
  | S fuel' =>
      if bool_decide (topIndex < holeIndex) && Event_gt (rd first parent value) value
      then push_heap_loop fuel' (<[holeIndex := rd first parent value]> first)
             parent topIndex value
      else <[holeIndex := value]> first
  end.

Definition push_heap_from (first : list Event) (holeIndex topIndex : nat)
    (value : Event) : list Event :=
  push_heap_loop holeIndex first holeIndex topIndex value.

(** The first loop of [std::__adjust_heap]: the hole moves down to the child
    that [comp] does not put after its sibling.
<<
    while (secondChild < (len - 1) / 2) {
      secondChild = 2 * (secondChild + 1);
      if (comp(first + secondChild, first + (secondChild - 1))) secondChild--;
      *(first + holeIndex) = *(first + secondChild);
      holeIndex = secondChild;
    }
>>
    [holeIndex] and [secondChild] are equal at every test of the loop, so one
    index is carried. *)
Fixpoint adjust_heap_down (fuel : nat) (first : list Event)
    (holeIndex len : nat) (d : Event) : list Event * nat :=
  match fuel with
  | O => (first, holeIndex)
  | S fuel' =>
      if bool_decide (holeIndex < (len - 1) / 2)
      then
        let secondChild := 2 * (holeIndex + 1) in
        let secondChild :=
          if Event_gt (rd first secondChild d) (rd first (secondChild - 1) d)
          then secondChild - 1 else secondChild in
        adjust_heap_down fuel' (<[holeIndex := rd first secondChild d]> first)
          secondChild len d
      else (first, holeIndex)
  end.

(** [std::__adjust_heap(first, holeIndex, len, value, comp)]: the loop above,
    the case of a last node with a single child,
<<
    if ((len & 1) == 0 && secondChild == (len - 2) / 2) {
      secondChild = 2 * (secondChild + 1);
      *(first + holeIndex) = *(first + (secondChild - 1));
      holeIndex = secondChild - 1;
    }
>>
    and then [__push_heap(first, holeIndex, topIndex, value, comp)]. *)
Definition adjust_heap (first : list Event) (holeIndex len : nat)
    (value : Event) : list Event :=
  let '(first1, hole1) := adjust_heap_down len first holeIndex len value in
  let '(first2, hole2) :=
    if Nat.even len && bool_decide (hole1 = (len - 2) / 2)
    then (<[hole1 := rd first1 (2 * (hole1 + 1) - 1) value]> first1,
          2 * (hole1 + 1) - 1)
    else (first1, hole1) in
  push_heap_from first2 hole2 holeIndex value.

(** [priority_queue::push]. *)
Definition push (x : Event) (c : list Event) : list Event :=
  push_heap_from (c ++ [x]) (length c) 0 x.

(** [priority_queue::top]; the driver calls it on a non-empty queue only. *)
Definition top (c : list Event) : option Event := head c.

(** [priority_queue::pop].  [std::pop_heap] does nothing on fewer than two
    elements; otherwise it saves the last element, moves the root to the last
    slot (which [pop_back] then drops) and calls [__adjust_heap] on the other
    [len = size - 1] slots. *)
Definition pop (c : list Event) : list Event :=
  match c with
  | [] => []
  | front :: _ =>
      if bool_decide (1 < length c)
      then
        let len := length c - 1 in
        adjust_heap (take len c) 0 len (rd c len front)
      else []
  end.

(** [priority_queue::empty]. *)
Definition empty (c : list Event) : bool :=
  match c with [] => true | _ => false end.

(** The heap shape: no node precedes its parent in time. *)
Definition is_heap (c : list Event) : Prop :=
  forall i x y, 0 < i -> c !! i = Some y -> c !! ((i - 1) / 2) = Some x ->
    (time x <= time y)%Q.

(** Popping [n] times and listing what came out. *)
Fixpoint drain (n : nat) (c : list Event) : list Event :=
  match n with
  | O => []
  | S n' =>
      match top c with
      | Some e => e :: drain n' (pop c)
      | None => []
      end
  end.

End PQ.

(** ** The random source

    [std::default_random_engine generator] and the call
    [rawMaterialArrivalDist(generator)] of an
    [std::exponential_distribution<double>]: drawing a sample returns a
    duration and leaves the engine in a new state.  [breakdownDist] is never
    sampled by the source. *)

Class RandomSource (G : Type) := {
  (** [generator.seed(s)] *)
  seed_engine : Z -> G;
  (** [rawMaterialArrivalDist(generator)] *)
  sample_interarrival : G -> Q * G
}.

(** ** The simulation state *)

(** A line written to [std::cout]. *)
Inductive LogLine :=
| LogArrival (productType : string) (t : Q)
    (* "Raw material for " productType " arrived at time " t *)
| LogCompleted (stage productType : string) (t : Q)
    (* stage " for " productType " completed at time " t *)
| LogBreakdown (resource : string) (t : Q)
    (* "Breakdown occurred on " resource " at time " t *)
| LogMaintenance (resource : string) (t : Q)
    (* "Maintenance completed on " resource " at time " t *)
| LogShiftChange (t : Q).
    (* "Shift change at time " t *)

(** The data members of [class ManufacturingSystem], and the console. *)
Record ManufacturingSystem (G : Type) := {
  eventQueue : list Event;
  resources : gmap string Z;
  availableResources : gmap string Z;
  resourceUsageTime : gmap string Q;
  resourceWaitingTime : gmap string Q;
  rawMaterialCount : Z;
  finishedProducts : Z;
  currentTime : Q;
  generator : G;
  processingTimes : gmap string (list Q);
  productTypes : gmap string Z;
  finishedProductsPerType : gmap string Z;
  productQueue : list Product;
  machineSetupTimes : gmap string Q;
  shiftLength : Z;
  console : list LogLine
}.

Arguments eventQueue {G} _.
Arguments resources {G} _.
Arguments availableResources {G} _.
Arguments resourceUsageTime {G} _.
Arguments resourceWaitingTime {G} _.
Arguments rawMaterialCount {G} _.
Arguments finishedProducts {G} _.
Arguments currentTime {G} _.
Arguments generator {G} _.
Arguments processingTimes {G} _.
Arguments productTypes {G} _.
Arguments finishedProductsPerType {G} _.
Arguments productQueue {G} _.
Arguments machineSetupTimes {G} _.
Arguments shiftLength {G} _.
Arguments console {G} _.

Section Engine.

Context {G : Type} {R : RandomSource G}.

Local Abbreviation System := (ManufacturingSystem G).

(** Assignments to one data member. *)

Definition set_eventQueue (v : list Event) (s : System) : System :=
  {| eventQueue := v; resources := resources s;
     availableResources := availableResources s;
     resourceUsageTime := resourceUsageTime s;
     resourceWaitingTime := resourceWaitingTime s;
     rawMaterialCount := rawMaterialCount s;
     finishedProducts := finishedProducts s; currentTime := currentTime s;
     generator := generator s; processingTimes := processingTimes s;
     productTypes := productTypes s;
     finishedProductsPerType := finishedProductsPerType s;
     productQueue := productQueue s;
     machineSetupTimes := machineSetupTimes s; shiftLength := shiftLength s;
     console := console s |}.

Definition set_resources (v : gmap string Z) (s : System) : System :=
  {| eventQueue := eventQueue s; resources := v;
     availableResources := availableResources s;
     resourceUsageTime := resourceUsageTime s;
     resourceWaitingTime := resourceWaitingTime s;
     rawMaterialCount := rawMaterialCount s;
     finishedProducts := finishedProducts s; currentTime := currentTime s;
     generator := generator s; processingTimes := processingTimes s;
     productTypes := productTypes s;
     finishedProductsPerType := finishedProductsPerType s;
     productQueue := productQueue s;
     machineSetupTimes := machineSetupTimes s; shiftLength := shiftLength s;
     console := console s |}.

Definition set_availableResources (v : gmap string Z) (s : System) : System :=
  {| eventQueue := eventQueue s; resources := resources s;
     availableResources := v;
     resourceUsageTime := resourceUsageTime s;
     resourceWaitingTime := resourceWaitingTime s;
     rawMaterialCount := rawMaterialCount s;
     finishedProducts := finishedProducts s; currentTime := currentTime s;
     generator := generator s; processingTimes := processingTimes s;
     productTypes := productTypes s;
     finishedProductsPerType := finishedProductsPerType s;
     productQueue := productQueue s;
     machineSetupTimes := machineSetupTimes s; shiftLength := shiftLength s;
     console := console s |}.

Definition set_resourceUsageTime (v : gmap string Q) (s : System) : System :=
  {| eventQueue := eventQueue s; resources := resources s;
     availableResources := availableResources s;
     resourceUsageTime := v;
     resourceWaitingTime := resourceWaitingTime s;
     rawMaterialCount := rawMaterialCount s;
     finishedProducts := finishedProducts s; currentTime := currentTime s;
     generator := generator s; processingTimes := processingTimes s;
     productTypes := productTypes s;
     finishedProductsPerType := finishedProductsPerType s;
     productQueue := productQueue s;
     machineSetupTimes := machineSetupTimes s; shiftLength := shiftLength s;
     console := console s |}.

Definition set_resourceWaitingTime (v : gmap string Q) (s : System) : System :=
  {| eventQueue := eventQueue s; resources := resources s;
     availableResources := availableResources s;
     resourceUsageTime := resourceUsageTime s;
     resourceWaitingTime := v;
     rawMaterialCount := rawMaterialCount s;
     finishedProducts := finishedProducts s; currentTime := currentTime s;
     generator := generator s; processingTimes := processingTimes s;
     productTypes := productTypes s;
     finishedProductsPerType := finishedProductsPerType s;
     productQueue := productQueue s;
     machineSetupTimes := machineSetupTimes s; shiftLength := shiftLength s;
     console := console s |}.

Definition set_rawMaterialCount (v : Z) (s : System) : System :=
  {| eventQueue := eventQueue s; resources := resources s;
     availableResources := availableResources s;
     resourceUsageTime := resourceUsageTime s;
     resourceWaitingTime := resourceWaitingTime s;
     rawMaterialCount := v;
     finishedProducts := finishedProducts s; currentTime := currentTime s;
     generator := generator s; processingTimes := processingTimes s;
     productTypes := productTypes s;
     finishedProductsPerType := finishedProductsPerType s;
     productQueue := productQueue s;
     machineSetupTimes := machineSetupTimes s; shiftLength := shiftLength s;
     console := console s |}.

Definition set_finishedProducts (v : Z) (s : System) : System :=
  {| eventQueue := eventQueue s; resources := resources s;
     availableResources := availableResources s;
     resourceUsageTime := resourceUsageTime s;
     resourceWaitingTime := resourceWaitingTime s;
     rawMaterialCount := rawMaterialCount s;
     finishedProducts := v; currentTime := currentTime s;
     generator := generator s; processingTimes := processingTimes s;
     productTypes := productTypes s;
     finishedProductsPerType := finishedProductsPerType s;
     productQueue := productQueue s;
     machineSetupTimes := machineSetupTimes s; shiftLength := shiftLength s;
     console := console s |}.

Definition set_currentTime (v : Q) (s : System) : System :=
  {| eventQueue := eventQueue s; resources := resources s;
     availableResources := availableResources s;
     resourceUsageTime := resourceUsageTime s;
     resourceWaitingTime := resourceWaitingTime s;
     rawMaterialCount := rawMaterialCount s;
     finishedProducts := finishedProducts s; currentTime := v;
     generator := generator s; processingTimes := processingTimes s;
     productTypes := productTypes s;
     finishedProductsPerType := finishedProductsPerType s;
     productQueue := productQueue s;
     machineSetupTimes := machineSetupTimes s; shiftLength := shiftLength s;
     console := console s |}.

Definition set_generator (v : G) (s : System) : System :=
  {| eventQueue := eventQueue s; resources := resources s;
     availableResources := availableResources s;
     resourceUsageTime := resourceUsageTime s;
     resourceWaitingTime := resourceWaitingTime s;
     rawMaterialCount := rawMaterialCount s;
     finishedProducts := finishedProducts s; currentTime := currentTime s;
     generator := v; processingTimes := processingTimes s;
     productTypes := productTypes s;
     finishedProductsPerType := finishedProductsPerType s;
     productQueue := productQueue s;
     machineSetupTimes := machineSetupTimes s; shiftLength := shiftLength s;
     console := console s |}.

Definition set_processingTimes (v : gmap string (list Q)) (s : System) : System :=
  {| eventQueue := eventQueue s; resources := resources s;
     availableResources := availableResources s;
     resourceUsageTime := resourceUsageTime s;
     resourceWaitingTime := resourceWaitingTime s;
     rawMaterialCount := rawMaterialCount s;
     finishedProducts := finishedProducts s; currentTime := currentTime s;
     generator := generator s; processingTimes := v;
     productTypes := productTypes s;
     finishedProductsPerType := finishedProductsPerType s;
     productQueue := productQueue s;
     machineSetupTimes := machineSetupTimes s; shiftLength := shiftLength s;
     console := console s |}.

Definition set_finishedProductsPerType (v : gmap string Z) (s : System) : System :=
  {| eventQueue := eventQueue s; resources := resources s;
     availableResources := availableResources s;
     resourceUsageTime := resourceUsageTime s;
     resourceWaitingTime := resourceWaitingTime s;
     rawMaterialCount := rawMaterialCount s;
     finishedProducts := finishedProducts s; currentTime := currentTime s;
     generator := generator s; processingTimes := processingTimes s;
     productTypes := productTypes s;
     finishedProductsPerType := v;
     productQueue := productQueue s;
     machineSetupTimes := machineSetupTimes s; shiftLength := shiftLength s;
     console := console s |}.

Definition set_productQueue (v : list Product) (s : System) : System :=
  {| eventQueue := eventQueue s; resources := resources s;
     availableResources := availableResources s;
     resourceUsageTime := resourceUsageTime s;
     resourceWaitingTime := resourceWaitingTime s;
     rawMaterialCount := rawMaterialCount s;
     finishedProducts := finishedProducts s; currentTime := currentTime s;
     generator := generator s; processingTimes := processingTimes s;
     productTypes := productTypes s;
     finishedProductsPerType := finishedProductsPerType s;
     productQueue := v;
     machineSetupTimes := machineSetupTimes s; shiftLength := shiftLength s;
     console := console s |}.

Definition set_machineSetupTimes (v : gmap string Q) (s : System) : System :=
  {| eventQueue := eventQueue s; resources := resources s;
     availableResources := availableResources s;
     resourceUsageTime := resourceUsageTime s;
     resourceWaitingTime := resourceWaitingTime s;
     rawMaterialCount := rawMaterialCount s;
     finishedProducts := finishedProducts s; currentTime := currentTime s;
     generator := generator s; processingTimes := processingTimes s;
     productTypes := productTypes s;
     finishedProductsPerType := finishedProductsPerType s;
     productQueue := productQueue s;
     machineSetupTimes := v; shiftLength := shiftLength s;
     console := console s |}.

(** [std::cout << ... << std::endl]. *)
Definition print (line : LogLine) (s : System) : System :=
  {| eventQueue := eventQueue s; resources := resources s;
     availableResources := availableResources s;
     resourceUsageTime := resourceUsageTime s;
     resourceWaitingTime := resourceWaitingTime s;
     rawMaterialCount := rawMaterialCount s;
     finishedProducts := finishedProducts s; currentTime := currentTime s;
     generator := generator s; processingTimes := processingTimes s;
     productTypes := productTypes s;
     finishedProductsPerType := finishedProductsPerType s;
     productQueue := productQueue s;
     machineSetupTimes := machineSetupTimes s; shiftLength := shiftLength s;
     console := console s ++ [line] |}.

(** *** Construction and configuration *)

(** [ManufacturingSystem::ManufacturingSystem()].  [epoch] is the value that
    [std::time(nullptr)] returns when the object is built. *)
Definition ManufacturingSystem_new (epoch : Z) : System :=
  {| eventQueue := [];
     resources := <["operators" := 5]> (<["machines" := 10]> ∅);
     availableResources := <["operators" := 5]> (<["machines" := 10]> ∅);
     resourceUsageTime := <["operators" := 0%Q]> (<["machines" := 0%Q]> ∅);
     resourceWaitingTime := <["operators" := 0%Q]> (<["machines" := 0%Q]> ∅);
     rawMaterialCount := 0;
     finishedProducts := 0;
     currentTime := 0%Q;
     generator := seed_engine (Int.to_unsigned epoch);
     processingTimes :=
       <["ProductB" := [3; 2; 3 # 2; 3 # 2]%Q]>
         (<["ProductA" := [2; 3 # 2; 1; 1]%Q]> ∅);
     productTypes := <["ProductB" := 0]> (<["ProductA" := 0]> ∅);
     finishedProductsPerType := <["ProductB" := 0]> (<["ProductA" := 0]> ∅);
     productQueue := [];
     machineSetupTimes :=
       <["ProductB" := (3 # 4)%Q]> (<["ProductA" := (1 # 2)%Q]> ∅);
     shiftLength := 8;
     console := [] |}.

(** [setResources]: the capacities are replaced and the available counts
    reset to them. *)
Definition setResources (newResources : gmap string Z) (s : System) : System :=
  set_availableResources newResources (set_resources newResources s).

(** [setAvailableResources]. *)
Definition setAvailableResources (newAvailableResources : gmap string Z)
    (s : System) : System :=
  set_availableResources newAvailableResources s.

(** *** Scheduling *)

(** [scheduleEvent]: the event is pushed, whatever its time. *)
Definition scheduleEvent (t : Q) (ty : string) (a : Action) (s : System) : System :=
  set_eventQueue (PQ.push {| time := t; type := ty; action := a |} (eventQueue s)) s.

(** *** The stage machine *)

Definition getStageName (stageIndex : Z) : string :=
  match stageIndex with
  | 0 => "machining"
  | 1 => "assembly"
  | 2 => "quality_control"
  | 3 => "packaging"
  | _ => "unknown"
  end.

(** [product.intermediateStage < processingTimes[product.type].size()]:
    the [int] is converted to [size_t] before the comparison. *)
Definition stage_in_range (product : Product) (times : list Q) : bool :=
  Int.to_size_t (intermediateStage product) <? Z.of_nat (length times).

Definition handleNextStage (product : Product) (s : System) : System :=
  let s := set_processingTimes
             (map_touch [] (processingTimes s) (ptype product)) s in
  let times := map_at [] (processingTimes s) (ptype product) in
  if stage_in_range product times then
    let processTime := nth (Z.to_nat (intermediateStage product)) times 0%Q in
    let stage := getStageName (intermediateStage product) in
    let s := set_availableResources
               (map_touch 0 (availableResources s) stage) s in
    if 0 <? map_at 0 (availableResources s) stage then
      (* setupTime = intermediateStage == 0 ? machineSetupTimes[type] : 0.0 *)
      let s := if intermediateStage product =? 0
               then set_machineSetupTimes
                      (map_touch 0%Q (machineSetupTimes s) (ptype product)) s
               else s in
      let setupTime := if intermediateStage product =? 0
                       then map_at 0%Q (machineSetupTimes s) (ptype product)
                       else 0%Q in
      (* availableResources[stage]-- *)
      let s := set_availableResources
                 (<[stage := Int.decr (map_at 0 (availableResources s) stage)]>
                    (availableResources s)) s in
      let s := scheduleEvent (currentTime s + setupTime)%Q "setup"
                 (ActSetup product processTime stage) s in
      (* resourceUsageTime[stage] += setupTime *)
      set_resourceUsageTime
        (<[stage := (map_at 0%Q (resourceUsageTime s) stage + setupTime)%Q]>
           (resourceUsageTime s)) s
    else
      (* resourceWaitingTime[stage] += processTime *)
      set_resourceWaitingTime
        (<[stage := (map_at 0%Q (resourceWaitingTime s) stage + processTime)%Q]>
           (resourceWaitingTime s)) s
  else s.

(** The body of the "setup" lambda of [handleNextStage]. *)
Definition setupDone (product : Product) (processTime : Q) (stage : string)
    (s : System) : System :=
  let s := set_resourceUsageTime
             (<[stage := (map_at 0%Q (resourceUsageTime s) stage + processTime)%Q]>
                (resourceUsageTime s)) s in
  scheduleEvent (currentTime s + processTime)%Q stage (ActCompleteStage product) s.

Definition completeStage (product : Product) (s : System) : System :=
  let stage := getStageName (intermediateStage product) in
  let s := print (LogCompleted stage (ptype product) (currentTime s)) s in
  (* availableResources[stage]++ *)
  let s := set_availableResources
             (<[stage := Int.incr (map_at 0 (availableResources s) stage)]>
                (availableResources s)) s in
  (* product.intermediateStage++ *)
  let product := {| ptype := ptype product;
                    intermediateStage := Int.incr (intermediateStage product) |} in
  let s := set_processingTimes
             (map_touch [] (processingTimes s) (ptype product)) s in
  if stage_in_range product (map_at [] (processingTimes s) (ptype product))
  then handleNextStage product s
  else
    let s := set_finishedProducts (Int.incr (finishedProducts s)) s in
    set_finishedProductsPerType
      (<[ptype product :=
           Int.incr (map_at 0 (finishedProductsPerType s) (ptype product))]>
         (finishedProductsPerType s)) s.

(** *** Arrivals, breakdowns, shifts *)

Definition handleRawMaterialArrival (productType : string) (s : System) : System :=
  let s := set_rawMaterialCount (Int.incr (rawMaterialCount s)) s in
  let newProduct := {| ptype := productType; intermediateStage := 0 |} in
  let s := set_productQueue (productQueue s ++ [newProduct]) s in
  let s := print (LogArrival productType (currentTime s)) s in
  let '(d, g) := sample_interarrival (generator s) in
  let s := set_generator g s in
  let s := scheduleEvent (currentTime s + d)%Q "raw_material_arrival"
             (ActRawMaterialArrival productType) s in
  handleNextStage newProduct s.

Definition handleBreakdown (resource : string) (s : System) : System :=
  let s := print (LogBreakdown resource (currentTime s)) s in
  scheduleEvent (currentTime s + 5)%Q "maintenance" (ActMaintenance resource) s.

Definition handleMaintenance (resource : string) (s : System) : System :=
  let s := print (LogMaintenance resource (currentTime s)) s in
  set_availableResources
    (<[resource := Int.incr (map_at 0 (availableResources s) resource)]>
       (availableResources s)) s.

Definition handleShiftChange (s : System) : System :=
  let s := print (LogShiftChange (currentTime s)) s in
  let s := set_availableResources (resources s) s in
  scheduleEvent (currentTime s + inject_Z (shiftLength s))%Q "shift_change"
    ActShiftChange s.

(** [currentEvent.action()]. *)
Definition invoke (a : Action) (s : System) : System :=
  match a with
  | ActRawMaterialArrival productType => handleRawMaterialArrival productType s
  | ActSetup product processTime stage => setupDone product processTime stage s
  | ActCompleteStage product => completeStage product s
  | ActMaintenance resource => handleMaintenance resource s
  | ActShiftChange => handleShiftChange s
  end.

(** *** The driver *)

(** The two [scheduleEvent] calls that open [runSimulation]. *)
Definition seedEvents (s : System) : System :=
  let '(d, g) := sample_interarrival (generator s) in
  let s := set_generator g s in
  let s := scheduleEvent d "raw_material_arrival"
             (ActRawMaterialArrival "ProductA") s in
  scheduleEvent (inject_Z (shiftLength s)) "shift_change" ActShiftChange s.

Definition Qltb (a b : Q) : bool := negb (Qle_bool b a).

(** [!eventQueue.empty() && currentTime < runTime] *)
Definition loop_test (runTime : Q) (s : System) : bool :=
  negb (PQ.empty (eventQueue s)) && Qltb (currentTime s) runTime.

(** One iteration: [top], [pop], [currentTime = currentEvent.time], action. *)
Definition loop_body (s : System) : System :=
  match PQ.top (eventQueue s) with
  | Some currentEvent =>
      let s := set_eventQueue (PQ.pop (eventQueue s)) s in
      let s := set_currentTime (time currentEvent) s in
      invoke (action currentEvent) s
  | None => s
  end.

(** The [while] loop, cut after [n] iterations.  The loop of the source need
    not terminate (an arrival may reschedule itself at the same instant for
    ever), so a run is observed through its prefixes: [run_loop n] is the
    state after [n] iterations, or the final state if the loop has exited
    before. *)
Fixpoint run_loop (n : nat) (runTime : Q) (s : System) : System :=
  match n with
  | O => s
  | S n' => if loop_test runTime s then run_loop n' runTime (loop_body s) else s
  end.

(** The events popped by the first [n] iterations, in order. *)
Fixpoint popped (n : nat) (runTime : Q) (s : System) : list Event :=
  match n with
  | O => []
  | S n' =>
      if loop_test runTime s
      then match PQ.top (eventQueue s) with
           | Some e => e :: popped n' runTime (loop_body s)
           | None => []
           end
      else []
  end.

(** The loop has exited. *)
Definition finished (runTime : Q) (s : System) : Prop :=
  loop_test runTime s = false.

(** What [logData] writes to its file. *)
Record LogData := {
  log_resourceUsageTime : gmap string Q;
  log_resourceWaitingTime : gmap string Q;
  log_finishedProducts : Z;
  log_finishedProductsPerType : gmap string Z
}.

Definition logData (s : System) : LogData :=
  {| log_resourceUsageTime := resourceUsageTime s;
     log_resourceWaitingTime := resourceWaitingTime s;
     log_finishedProducts := finishedProducts s;
     log_finishedProductsPerType := finishedProductsPerType s |}.

(** [runSimulation(runTime)], observed after [n] iterations of its loop. *)
Definition runSimulation (n : nat) (runTime : Q) (s : System) : System :=
  run_loop n runTime (seedEvents s).

(** [runScenario]: a fresh system, [setResources] with the two counts, and a
    run.  The [productType] argument of the source only names the log file. *)
Definition runScenario (epoch : Z) (machineCount operatorCount : Z)
    (n : nat) (runTime : Q) : System :=
  runSimulation n runTime
    (setResources (<["operators" := operatorCount]> (<["machines" := machineCount]> ∅))
       (ManufacturingSystem_new epoch)).

End Engine.

(** ** Two concrete random sources *)

(** A scripted source: the samples of a list, one after the other, then [1]
    for ever.  The seed is ignored. *)
Definition scripted_sample (g : list Q) : Q * list Q :=
  match g with
  | [] => (1%Q, [])
  | d :: g' => (d, g')
  end.

(** A source that starts from a script [g0]. *)
Definition Scripted (g0 : list Q) : RandomSource (list Q) :=
  {| seed_engine := fun _ => g0; sample_interarrival := scripted_sample |}.

(** A linear congruential engine whose samples are quarters of a time unit. *)
Definition lcg_sample (g : Z) : Q * Z :=
  (inject_Z (g mod 8 + 1) / 4, (g * 1103515245 + 12345) mod 2147483648)%Q.

Definition Lcg : RandomSource Z :=
  {| seed_engine := fun seed => seed; sample_interarrival := lcg_sample |}.

(** ** Observations and invariants used by the properties *)

(** The times of the "Shift change" lines of the console, in order. *)
Definition shift_change_times (out : list LogLine) : list Q :=
  omap (fun line => match line with LogShiftChange t => Some t | _ => None end) out.

(** The array [first] is a heap but for the slot [h], which waits for a
    value [v]: every other parent-child pair is ordered, the children of the
    hole are not before [v], nor before the parent of the hole. *)
Definition hole_heap (first : list Event) (h : nat) (v : Event) : Prop :=
  (h < length first)%nat /\
  (forall i x y, (0 < i)%nat -> i <> h -> ((i - 1) / 2)%nat <> h ->
     first !! i = Some y -> first !! ((i - 1) / 2)%nat = Some x ->
     (time x <= time y)%Q) /\
  (forall i y, (0 < i)%nat -> ((i - 1) / 2)%nat = h -> first !! i = Some y ->
     (time v <= time y)%Q) /\
  (forall i x y, (0 < i)%nat -> ((i - 1) / 2)%nat = h -> (0 < h)%nat ->
     first !! i = Some y -> first !! ((h - 1) / 2)%nat = Some x ->
     (time x <= time y)%Q).

(** ** Concrete systems and products used as test inputs *)

(** A system just constructed, drawing its samples from the script [g0]. *)
Definition fresh (g0 : list Q) : ManufacturingSystem (list Q) :=
  @ManufacturingSystem_new _ (Scripted g0) 0.

Definition productA (stage : Z) : Product :=
  {| ptype := "ProductA"; intermediateStage := stage |}.

(** The capacities of the first scenario of [main]. *)
Definition capacities_10_5 : gmap string Z :=
  <["operators" := 5]> (<["machines" := 10]> ∅).

(** One unit of every stage resource: a configuration under which units are
    processed. *)
Definition capacities_by_stage : gmap string Z :=
  <["packaging" := 1]> (<["quality_control" := 1]>
    (<["assembly" := 1]> (<["machining" := 1]> ∅))).

(** ** The scheduling contract of the specification

    Section 4.1 of the specification has [schedule] refuse a time before the
    current one.  [schedule_checked] states that contract, for comparison
    with [scheduleEvent]. *)

Inductive ScheduleError := InvalidTimeError.

Definition schedule_checked {G : Type} (t : Q) (ty : string) (a : Action)
    (s : ManufacturingSystem G) : ScheduleError + ManufacturingSystem G :=
  if Qltb t (currentTime s) then inl InvalidTimeError
  else inr (scheduleEvent t ty a s).

(** ** The stalled line

    The events that the two generators of [runSimulation] schedule. *)
Definition generator_action (a : Action) : Prop :=
  match a with
  | ActRawMaterialArrival _ | ActShiftChange => True
  | _ => False
  end.

(** No stage has a unit of its resource, now or after a shift change, and
    only arrivals and shift changes are pending. *)
Definition stalled {G : Type} (s : ManufacturingSystem G) : Prop :=
  PQ.is_heap (eventQueue s) /\
  (forall e, e ∈ eventQueue s -> generator_action (action e)) /\
  (forall i, map_at 0 (availableResources s) (getStageName i) <= 0) /\
  (forall i, map_at 0 (resources s) (getStageName i) <= 0).

(** ** Pop order *)

(** The times of [l] never decrease and start at [t] or later. *)
Fixpoint nondecreasing_from (t : Q) (l : list Event) : Prop :=
  match l with
  | [] => True
  | e :: l' => (t <= time e)%Q /\ nondecreasing_from (time e) l'
  end.

Definition nondecreasing (l : list Event) : Prop :=
  match l with
  | [] => True
  | e :: l' => nondecreasing_from (time e) l'
  end.

(** Of two events of equal time, the one scheduled first (its place in [es])
    is popped first (its place in [out]). *)
Definition ties_in_schedule_order (es out : list Event) : Prop :=
  forall i j a b, (i < j)%nat -> es !! i = Some a -> es !! j = Some b ->
    (time a == time b)%Q ->
    exists p q, (p < q)%nat /\ out !! p = Some a /\ out !! q = Some b.

(** The setup lambda carries a processing time, which is not negative. *)
Definition setup_time_ok (a : Action) : Prop :=
  match a with
  | ActSetup _ processTime _ => (0 <= processTime)%Q
  | _ => True
  end.

(** The queue is a heap of events that are not in the past, and no duration
    of the configuration is negative. *)
Definition sched_inv {G : Type} (s : ManufacturingSystem G) : Prop :=
  PQ.is_heap (eventQueue s) /\
  (forall e, e ∈ eventQueue s ->
     (currentTime s <= time e)%Q /\ setup_time_ok (action e)) /\
  (forall ty times t, processingTimes s !! ty = Some times -> t ∈ times ->
     (0 <= t)%Q) /\
  (forall ty d, machineSetupTimes s !! ty = Some d -> (0 <= d)%Q) /\
  0 <= shiftLength s.

(** The random source never returns a negative duration. *)
Definition nonneg_samples (G : Type) {R : RandomSource G} : Prop :=
  forall g, (0 <= fst (sample_interarrival g))%Q.

(** Four breakdowns reported one after the other on a fresh system: four
    maintenance events, all of time 5. *)
Definition four_breakdowns : ManufacturingSystem (list Q) :=
  handleBreakdown "oven" (handleBreakdown "press"
    (handleBreakdown "operators" (handleBreakdown "machines" (fresh [10%Q])))).

Definition maintenance_at_5 (resource : string) : Event :=
  {| time := (0 + 5)%Q; type := "maintenance"; action := ActMaintenance resource |}.

(** ** Resource counts *)

(** Every available count and every capacity is in [0, INT_MAX - m]: room
    for [m] increments. *)
Definition counts_within {G : Type} (m : Z) (s : ManufacturingSystem G) : Prop :=
  (forall r, 0 <= map_at 0 (availableResources s) r <= Int.max_int - m) /\
  (forall r, 0 <= map_at 0 (resources s) r <= Int.max_int - m).

(** Every available count is between 0 and the capacity. *)
Definition within_capacity {G : Type} (s : ManufacturingSystem G) : Prop :=
  forall r, 0 <= map_at 0 (availableResources s) r <= map_at 0 (resources s) r.

(** ** Shift changes in a run of 24 time units *)

(** The state of the random engine after [n] samples. *)
Fixpoint engine_after {G : Type} {R : RandomSource G} (n : nat) (g : G) : G :=
  match n with
  | O => g
  | S n' => snd (sample_interarrival (engine_after n' g))
  end.

(** The time of the arrival number [n] of a run (the first has number 0)
    whose engine starts in state [g]: the first sample, then one more sample
    added for each arrival. *)
Fixpoint arrival_time {G : Type} {R : RandomSource G} (n : nat) (g : G) : Q :=
  match n with
  | O => fst (sample_interarrival g)
  | S n' =>
      (arrival_time n' g + fst (sample_interarrival (engine_after (S n') g)))%Q
  end.

Definition arrival_event (t : Q) : Event :=
  {| time := t; type := "raw_material_arrival";
     action := ActRawMaterialArrival "ProductA" |}.

Definition shift_event (t : Q) : Event :=
  {| time := t; type := "shift_change"; action := ActShiftChange |}.

(** The times 8, 16, ..., 8k. *)
Definition shift_multiples (k : nat) : list Q :=
  map (fun i => inject_Z (8 * Z.of_nat i)) (seq 1 k).

(** A stalled line in a run bounded by 24, after [k] shift changes and [j]
    arrivals: the arrival number [j] and the shift change number [k + 1] are
    pending, the console shows the [k] shift changes, every arrival popped
    so far was before 24, and the clock has reached 24 exactly when the
    third shift change has fired. *)
Definition shift_phase {G : Type} {R : RandomSource G} (g0 : G) (k j : nat)
    (s : ManufacturingSystem G) : Prop :=
  shiftLength s = 8 /\
  (forall i, map_at 0 (availableResources s) (getStageName i) <= 0) /\
  (forall i, map_at 0 (resources s) (getStageName i) <= 0) /\
  generator s = engine_after (S j) g0 /\
  (let a := arrival_event (arrival_time j g0) in
   let c := shift_event (inject_Z (8 * Z.of_nat (S k))) in
   (eventQueue s = [a; c] /\ (time a <= time c)%Q) \/ eventQueue s = [c; a]) /\
  shift_change_times (console s) = shift_multiples k /\
  (k <= 3)%nat /\
  (k = 3%nat -> (24 <= currentTime s)%Q) /\
  ((24 <= currentTime s)%Q -> k = 3%nat) /\
  (forall i, (i < j)%nat -> (arrival_time i g0 < 24)%Q).

(** ** Counters *)

(** The sum of the counters of a map, as the per-type lines of [logData]
    would add up. *)
Definition sum_counts (m : gmap string Z) : Z :=
  map_fold (fun _ v acc => v + acc) 0 m.

(** The global finished count is the sum of the counts by type, no count is
    negative, and there is room for [m] more increments. *)
Definition counters_consistent {G : Type} (m : Z) (s : ManufacturingSystem G) : Prop :=
  finishedProducts s = sum_counts (finishedProductsPerType s) /\
  map_Forall (fun _ v => 0 <= v) (finishedProductsPerType s) /\
  finishedProducts s <= Int.max_int - m.

(** [rawMaterialCount] is the length of [productQueue], with room for [m]
    more arrivals. *)
Definition arrivals_counted {G : Type} (m : Z) (s : ManufacturingSystem G) : Prop :=
  rawMaterialCount s = Z.of_nat (length (productQueue s)) /\
  rawMaterialCount s <= Int.max_int - m.

(** The product type an action or a console line is about is "ProductA". *)
Definition action_of_ProductA (a : Action) : Prop :=
  match a with
  | ActRawMaterialArrival productType => productType = "ProductA"
  | ActSetup product _ _ => ptype product = "ProductA"
  | ActCompleteStage product => ptype product = "ProductA"
  | ActMaintenance _ | ActShiftChange => True
  end.

Definition line_of_ProductA (line : LogLine) : Prop :=
  match line with
  | LogArrival productType _ => productType = "ProductA"
  | LogCompleted _ productType _ => productType = "ProductA"
  | _ => True
  end.

(** Only units of "ProductA" are pending or have been reported. *)
Definition only_ProductA {G : Type} (s : ManufacturingSystem G) : Prop :=
  PQ.is_heap (eventQueue s) /\
  (forall e, e ∈ eventQueue s -> action_of_ProductA (action e)) /\
  (forall line, line ∈ console s -> line_of_ProductA line) /\
  (forall product, product ∈ productQueue s -> ptype product = "ProductA").

(** The line of a scenario of [main]: stalled, fed with "ProductA" only,
    with the plan of "ProductA" as constructed, no busy time recorded and
    every available count reading as its capacity. *)
Definition idle_line {G : Type} (s : ManufacturingSystem G) : Prop :=
  stalled s /\
  (forall e productType, e ∈ eventQueue s ->
     action e = ActRawMaterialArrival productType -> productType = "ProductA") /\
  processingTimes s !! "ProductA" = Some [2; 3 # 2; 1; 1]%Q /\
  resourceUsageTime s = <["operators" := 0%Q]> (<["machines" := 0%Q]> ∅) /\
  (forall r, map_at 0 (availableResources s) r = map_at 0 (resources s) r).

(** The waiting time recorded for machining is 2.0 for each arrival, no
    other waiting time is recorded, and there is room for [m] more
    arrivals. *)
Definition waiting_counts {G : Type} (m : Z) (s : ManufacturingSystem G) : Prop :=
  (map_at 0%Q (resourceWaitingTime s) "machining" == 2 * inject_Z (rawMaterialCount s))%Q /\
  (forall r, r <> "machining" -> (map_at 0%Q (resourceWaitingTime s) r == 0)%Q) /\
  0 <= rawMaterialCount s <= Int.max_int - m.

(** A line of the console that reports a breakdown or a maintenance. *)
Definition breakdown_line (line : LogLine) : Prop :=
  match line with
  | LogBreakdown _ _ | LogMaintenance _ _ => True
  | _ => False
  end.

(** No maintenance is pending and no breakdown or maintenance has been
    reported. *)
Definition no_breakdown {G : Type} (s : ManufacturingSystem G) : Prop :=
  PQ.is_heap (eventQueue s) /\
  (forall e resource, e ∈ eventQueue s -> action e <> ActMaintenance resource) /\
  (forall line, line ∈ console s -> ~ breakdown_line line).

(** ** Sums that do not round

    The times of the model are exact rationals; the code adds [double]s and
    rounds.  The two agree on a sum of [double]s whenever the exact sum is
    itself a [double].  [binary64 q]: the rational [q] is a finite IEEE 754
    binary64 value, [m * 2^e] with [|m| < 2^53] and [-1074 <= e <= 971]. *)
Definition binary64 (q : Q) : Prop :=
  exists m e : Z,
    Z.abs m < 2 ^ 53 /\ -1074 <= e <= 971 /\ (q == inject_Z m * 2 ^ e)%Q.

(** ** Two systems that differ by stalled units only

    [s1] and [s2] agree on everything a handler reads: the same queue,
    capacities, busy times, counters, clock, engine, plans, setup times, shift
    length and console, and the same available count under every name (an
    absent entry reads 0, as [operator[]] has it).  They may differ in the
    waiting times and in [productQueue], which no handler reads. *)
Definition agree_but_waiting {G : Type} (s1 s2 : ManufacturingSystem G) : Prop :=
  eventQueue s1 = eventQueue s2 /\
  resources s1 = resources s2 /\
  (forall r, map_at 0 (availableResources s1) r = map_at 0 (availableResources s2) r) /\
  resourceUsageTime s1 = resourceUsageTime s2 /\
  rawMaterialCount s1 = rawMaterialCount s2 /\
  finishedProducts s1 = finishedProducts s2 /\
  currentTime s1 = currentTime s2 /\
  generator s1 = generator s2 /\
  processingTimes s1 = processingTimes s2 /\
  productTypes s1 = productTypes s2 /\
  finishedProductsPerType s1 = finishedProductsPerType s2 /\
  machineSetupTimes s1 = machineSetupTimes s2 /\
  shiftLength s1 = shiftLength s2 /\
  console s1 = console s2.

(** ** Proof automation *)

(** Linear arithmetic with halves: each [n / 2] is replaced by a fresh
    variable [q] with [n = 2 * q + r] and [r < 2]. *)
Ltac half_lia :=
  repeat match goal with
  | |- context [(?n / 2)%nat] =>
      let Hd := fresh "Hdiv" in let Hm := fresh "Hmod" in
      let q := fresh "q" in let r := fresh "r" in
      pose proof (Nat.div_mod_eq n 2) as Hd;
      pose proof (Nat.mod_upper_bound n 2 (Nat.neq_succ_0 1)) as Hm;
      set (q := (n / 2)%nat) in *; set (r := (n mod 2)%nat) in *;
      clearbody q r
  | _ : context [(?n / 2)%nat] |- _ =>
      let Hd := fresh "Hdiv" in let Hm := fresh "Hmod" in
      let q := fresh "q" in let r := fresh "r" in
      pose proof (Nat.div_mod_eq n 2) as Hd;
      pose proof (Nat.mod_upper_bound n 2 (Nat.neq_succ_0 1)) as Hm;
      set (q := (n / 2)%nat) in *; set (r := (n mod 2)%nat) in *;
      clearbody q r
  end; lia.

(** Projections of updated systems, without touching the queue or the maps. *)
Ltac sys_cbn :=
  cbn [eventQueue resources availableResources resourceUsageTime
       resourceWaitingTime rawMaterialCount finishedProducts currentTime
       generator processingTimes productTypes finishedProductsPerType
       productQueue machineSetupTimes shiftLength console
       set_eventQueue set_resources set_availableResources
       set_resourceUsageTime set_resourceWaitingTime set_rawMaterialCount
       set_finishedProducts set_currentTime set_generator set_processingTimes
       set_finishedProductsPerType set_productQueue set_machineSetupTimes
       print scheduleEvent setResources
       time type action arrival_event shift_event].

(** ** Further observations on the queue and the run *)

(** Scheduling the events of [es] one after the other, first to last. *)
Definition push_all (es : list Event) (c : list Event) : list Event :=
  foldl (fun c e => PQ.push e c) c es.

(** A shift-change event is pending. *)
Definition shift_pending {G : Type} (s : ManufacturingSystem G) : Prop :=
  exists e, e ∈ eventQueue s /\ action e = ActShiftChange.

(** Entry by entry, the accumulators of [m'] are those of [m] or more. *)
Definition accumulators_le (m m' : gmap string Q) : Prop :=
  forall r, (map_at 0 m r <= map_at 0 m' r)%Q.

(** A rational with denominator 1 or 2 and a small numerator is a [double]. *)
Ltac binary64_small :=
  match goal with
  | |- binary64 ?q =>
      let r := eval vm_compute in (Qred q) in
      match r with
      | Qmake ?n 1%positive => exists n, 0
      | Qmake ?n 2%positive => exists n, (-1)
      end;
      split; [vm_compute; reflexivity|split; [lia|vm_compute; reflexivity]]
  end.

(** * Properties *)

(** ** Machine integers *)

Lemma Int_wrap_small z : Int.min_int <= z <= Int.max_int -> Int.wrap z = z.
Proof.
  unfold Int.wrap, Int.min_int, Int.max_int. intros Hz.
  rewrite Z.mod_small by lia. lia.
Qed.

Lemma Int_incr_small z : Int.min_int <= z < Int.max_int -> Int.incr z = z + 1.
Proof.
  unfold Int.incr, Int.min_int, Int.max_int. intros Hz.
  apply Int_wrap_small. unfold Int.min_int, Int.max_int. lia.
Qed.

Lemma Int_decr_small z : Int.min_int < z <= Int.max_int -> Int.decr z = z - 1.
Proof.
  unfold Int.decr, Int.min_int, Int.max_int. intros Hz.
  apply Int_wrap_small. unfold Int.min_int, Int.max_int. lia.
Qed.

(** ** Maps read with [operator[]] *)

Section MapFacts.
Context {V : Type}.
Implicit Types (m : gmap string V) (k : string) (d v : V).

Lemma map_at_touch d m k k' : map_at d (map_touch d m k) k' = map_at d m k'.
Proof.
  unfold map_at, map_touch. destruct (m !! k) eqn:E; [done|].
  destruct (decide (k = k')) as [->|Hne].
  - by rewrite lookup_insert_eq, E.
  - by rewrite lookup_insert_ne.
Qed.

Lemma map_touch_present d m k v : m !! k = Some v -> map_touch d m k = m.
Proof. unfold map_touch. by intros ->. Qed.

Lemma map_touch_absent d m k : m !! k = None -> map_touch d m k = <[k := d]> m.
Proof. unfold map_touch. by intros ->. Qed.

Lemma map_at_present d m k v : m !! k = Some v -> map_at d m k = v.
Proof. unfold map_at. by intros ->. Qed.

Lemma map_at_absent d m k : m !! k = None -> map_at d m k = d.
Proof. unfold map_at. by intros ->. Qed.

Lemma map_at_insert_eq d m k v : map_at d (<[k := v]> m) k = v.
Proof. unfold map_at. by rewrite lookup_insert_eq. Qed.

Lemma map_at_insert_ne d m k k' v :
  k <> k' -> map_at d (<[k := v]> m) k' = map_at d m k'.
Proof. unfold map_at. intros Hne. by rewrite lookup_insert_ne. Qed.

End MapFacts.

(** ** Comparison of rationals and of events *)

Lemma Event_gt_true a b : Event_gt a b = true <-> (time b < time a)%Q.
Proof.
  unfold Event_gt. rewrite negb_true_iff. split.
  - intros Hb. apply Qnot_le_lt. intros Hle. apply Qle_bool_iff in Hle. congruence.
  - intros Hlt. destruct (Qle_bool (time a) (time b)) eqn:E; [|done].
    apply Qle_bool_iff in E. exfalso. eapply Qlt_not_le; eauto.
Qed.

Lemma Event_gt_false a b : Event_gt a b = false <-> (time a <= time b)%Q.
Proof. unfold Event_gt. rewrite negb_false_iff. apply Qle_bool_iff. Qed.

Lemma Qltb_true a b : Qltb a b = true <-> (a < b)%Q.
Proof.
  unfold Qltb. rewrite negb_true_iff. split.
  - intros Hb. apply Qnot_le_lt. intros Hle. apply Qle_bool_iff in Hle. congruence.
  - intros Hlt. destruct (Qle_bool b a) eqn:E; [|done].
    apply Qle_bool_iff in E. exfalso. eapply Qlt_not_le; eauto.
Qed.

Lemma Qltb_false a b : Qltb a b = false <-> (b <= a)%Q.
Proof. unfold Qltb. rewrite negb_false_iff. apply Qle_bool_iff. Qed.

(** ** The binary heap behind the event queue *)

Section HeapFacts.

Local Open Scope nat_scope.
Implicit Types (c first : list Event) (v x y d : Event) (i h len fuel : nat).

Lemma rd_lookup first i d x : first !! i = Some x -> PQ.rd first i d = x.
Proof. unfold PQ.rd. by intros ->. Qed.

Lemma lookup_lt_ex first i : i < length first -> exists x, first !! i = Some x.
Proof. intros Hi. apply lookup_lt_is_Some_2 in Hi. destruct Hi as [x Hx]. eauto. Qed.

(** Moving the hole from [h] to [k]: the slot [h] takes the value of [k]. *)
Lemma hole_move first h k v y :
  h <> k -> h < length first -> first !! k = Some y ->
  <[k := v]> (<[h := y]> first) ≡ₚ <[h := v]> first.
Proof.
  intros Hne Hh Hk.
  assert (<[h := v]> first !! h = Some v) as H1 by by apply list_lookup_insert_eq.
  assert (<[h := v]> first !! k = Some y) as H2 by by rewrite list_lookup_insert_ne.
  pose proof (Permutation_insert_swap _ _ _ _ _ H1 H2) as HP.
  by rewrite list_insert_insert_eq in HP.
Qed.

Lemma is_heap_nil : PQ.is_heap [].
Proof. intros i x y _ Hy. by rewrite lookup_nil in Hy. Qed.

Lemma is_heap_singleton x : PQ.is_heap [x].
Proof.
  intros i a b Hi Hb _. apply lookup_lt_Some in Hb. simpl in Hb. lia.
Qed.

Lemma is_heap_take c n : PQ.is_heap c -> PQ.is_heap (take n c).
Proof.
  intros Hc i x y Hi Hy Hx.
  destruct (decide (i < n)) as [Hlt|Hge].
  - rewrite lookup_take_lt in Hy by done.
    rewrite lookup_take_lt in Hx by half_lia. eauto.
  - rewrite lookup_take_ge in Hy by lia. done.
Qed.

(** The root of a heap is an event of least time. *)
Lemma is_heap_root_le c e :
  PQ.is_heap c -> c !! 0 = Some e ->
  forall i y, c !! i = Some y -> (time e <= time y)%Q.
Proof.
  intros Hc He i. induction (lt_wf i) as [i _ IH]. intros y Hy.
  destruct (decide (i = 0)) as [->|Hne].
  - rewrite He in Hy. injection Hy as <-. apply Qle_refl.
  - assert ((i - 1) / 2 < i) as Hp by half_lia.
    destruct (lookup_lt_ex c ((i - 1) / 2)) as [x Hx].
    { apply lookup_lt_Some in Hy. lia. }
    eapply Qle_trans; [apply (IH _ Hp _ Hx)|].
    apply (Hc i x y); [lia|done..].
Qed.

Lemma is_heap_top_min c e :
  PQ.is_heap c -> PQ.top c = Some e -> forall y, y ∈ c -> (time e <= time y)%Q.
Proof.
  intros Hc He y [i Hy]%list_elem_of_lookup. unfold PQ.top in He.
  rewrite head_lookup in He. eauto using is_heap_root_le.
Qed.

(** *** [__push_heap] *)

Lemma push_heap_loop_O first h top v :
  PQ.push_heap_loop 0 first h top v = <[h := v]> first.
Proof. reflexivity. Qed.

Lemma push_heap_loop_S fuel first h top v :
  PQ.push_heap_loop (S fuel) first h top v =
  if bool_decide (top < h) && Event_gt (PQ.rd first ((h - 1) / 2) v) v
  then PQ.push_heap_loop fuel (<[h := PQ.rd first ((h - 1) / 2) v]> first)
         ((h - 1) / 2) top v
  else <[h := v]> first.
Proof. reflexivity. Qed.

Lemma push_heap_loop_length fuel first h v :
  length (PQ.push_heap_loop fuel first h 0 v) = length first.
Proof.
  revert first h. induction fuel as [|fuel IH]; intros first h.
  - by rewrite push_heap_loop_O, length_insert.
  - rewrite push_heap_loop_S. case_match; [|by rewrite length_insert].
    rewrite IH. by rewrite length_insert.
Qed.

Lemma push_heap_loop_perm fuel first h v :
  h <= fuel -> h < length first ->
  PQ.push_heap_loop fuel first h 0 v ≡ₚ <[h := v]> first.
Proof.
  revert first h. induction fuel as [|fuel IH]; intros first h Hf Hh; [done|].
  rewrite push_heap_loop_S. case_match eqn:Hc; [|done].
  apply andb_prop in Hc as [Hc1 _]. apply bool_decide_eq_true_1 in Hc1.
  assert ((h - 1) / 2 < h) as Hp by half_lia.
  destruct (lookup_lt_ex first ((h - 1) / 2)) as [x Hx]; [lia|].
  rewrite (rd_lookup _ _ _ _ Hx).
  rewrite IH by (rewrite ?length_insert; half_lia).
  apply hole_move; [lia|done..].
Qed.

Lemma push_heap_loop_heap fuel first h v :
  h <= fuel -> hole_heap first h v ->
  PQ.is_heap (PQ.push_heap_loop fuel first h 0 v).
Proof.
  revert first h. induction fuel as [|fuel IH]; intros first h Hf (Hh & Ha & Hb & Hc).
  - rewrite push_heap_loop_O. assert (h = 0) as -> by lia.
    intros i x y Hi Hy Hx.
    rewrite list_lookup_insert_ne in Hy by lia.
    destruct (decide ((i - 1) / 2 = 0)) as [E|E].
    + rewrite E in Hx. rewrite list_lookup_insert_eq in Hx by done.
      injection Hx as <-. eauto.
    + rewrite list_lookup_insert_ne in Hx by lia. eapply (Ha i); eauto; lia.
  - rewrite push_heap_loop_S. case_match eqn:Hcond.
    + apply andb_prop in Hcond as [Hc1 Hc2]. apply bool_decide_eq_true_1 in Hc1.
      assert ((h - 1) / 2 < h) as Hp by half_lia.
      destruct (lookup_lt_ex first ((h - 1) / 2)) as [p Hpx]; [lia|].
      rewrite (rd_lookup _ _ _ _ Hpx) in Hc2 |- *.
      apply Event_gt_true in Hc2.
      apply IH; [lia|]. repeat split.
      * rewrite length_insert. lia.
      * intros i x y Hi Hne1 Hne2 Hy Hx.
        destruct (decide (i = h)) as [->|Hih].
        { done. }
        rewrite list_lookup_insert_ne in Hy by done.
        destruct (decide ((i - 1) / 2 = h)) as [E|E].
        { rewrite E in Hx. rewrite list_lookup_insert_eq in Hx by done.
          injection Hx as <-. eapply (Hc i); eauto. }
        rewrite list_lookup_insert_ne in Hx by done.
        eapply (Ha i); eauto.
      * intros i y Hi E Hy.
        destruct (decide (i = h)) as [->|Hih].
        { rewrite list_lookup_insert_eq in Hy by done. injection Hy as <-.
          by apply Qlt_le_weak. }
        rewrite list_lookup_insert_ne in Hy by done.
        apply Qlt_le_weak in Hc2. eapply Qle_trans; [exact Hc2|].
        eapply (Ha i); eauto; [lia|by rewrite E].
      * intros i x y Hi E Hpos Hy Hx.
        rewrite list_lookup_insert_ne in Hx by half_lia.
        assert (time x <= time p)%Q as Hxp.
        { eapply (Ha ((h - 1) / 2)); eauto; half_lia. }
        destruct (decide (i = h)) as [->|Hih].
        { rewrite list_lookup_insert_eq in Hy by done. by injection Hy as <-. }
        rewrite list_lookup_insert_ne in Hy by done.
        eapply Qle_trans; [exact Hxp|]. eapply (Ha i); eauto; [lia|by rewrite E].
    + intros i x y Hi Hy Hx.
      destruct (decide (i = h)) as [->|Hih].
      * rewrite list_lookup_insert_eq in Hy by done. injection Hy as <-.
        rewrite list_lookup_insert_ne in Hx by half_lia.
        rewrite (rd_lookup _ _ _ _ Hx) in Hcond.
        apply andb_false_iff in Hcond as [Hc1|Hc2].
        { apply bool_decide_eq_false_1 in Hc1. lia. }
        by apply Event_gt_false in Hc2.
      * rewrite list_lookup_insert_ne in Hy by done.
        destruct (decide ((i - 1) / 2 = h)) as [E|E].
        { rewrite E in Hx. rewrite list_lookup_insert_eq in Hx by done.
          injection Hx as <-. eauto. }
        rewrite list_lookup_insert_ne in Hx by done. eapply (Ha i); eauto.
Qed.

(** A heap whose slot [h] is a leaf is a heap but for that slot. *)
Lemma hole_heap_leaf first h v :
  PQ.is_heap first -> h < length first -> length first <= 2 * h + 1 ->
  hole_heap first h v.
Proof.
  intros Hheap Hh Hleaf. repeat split; [done|..].
  - intros i x y Hi _ _ Hy Hx. eauto.
  - intros i y Hi E Hy. apply lookup_lt_Some in Hy. half_lia.
  - intros i x y Hi E _ Hy _. apply lookup_lt_Some in Hy. half_lia.
Qed.

(** *** [priority_queue::push] *)

Lemma push_length x c : length (PQ.push x c) = S (length c).
Proof.
  unfold PQ.push, PQ.push_heap_from. rewrite push_heap_loop_length.
  rewrite length_app. simpl. lia.
Qed.

Lemma push_perm x c : PQ.push x c ≡ₚ x :: c.
Proof.
  unfold PQ.push, PQ.push_heap_from.
  rewrite push_heap_loop_perm; [|lia|rewrite length_app; simpl; lia].
  replace (length c) with (length c + 0) at 1 by lia.
  rewrite insert_app_r. simpl. by rewrite Permutation_app_comm.
Qed.

Lemma push_heap x c : PQ.is_heap c -> PQ.is_heap (PQ.push x c).
Proof.
  intros Hc. unfold PQ.push, PQ.push_heap_from.
  apply push_heap_loop_heap; [lia|]. repeat split.
  - rewrite length_app. simpl. lia.
  - intros i a b Hi Hne1 Hne2 Hb Ha.
    assert (i < length c) as Hlt.
    { apply lookup_lt_Some in Hb. rewrite length_app in Hb. simpl in Hb. lia. }
    rewrite lookup_app_l in Hb by done.
    rewrite lookup_app_l in Ha by half_lia. eauto.
  - intros i b Hi E Hb. apply lookup_lt_Some in Hb.
    rewrite length_app in Hb. simpl in Hb. half_lia.
  - intros i a b Hi E _ Hb _. apply lookup_lt_Some in Hb.
    rewrite length_app in Hb. simpl in Hb. half_lia.
Qed.

Lemma elem_of_push x c e : e ∈ PQ.push x c <-> e = x \/ e ∈ c.
Proof. rewrite push_perm. apply elem_of_cons. Qed.

(** *** [__adjust_heap] *)

Lemma adjust_heap_down_O first h len d :
  PQ.adjust_heap_down 0 first h len d = (first, h).
Proof. reflexivity. Qed.

Lemma adjust_heap_down_S fuel first h len d :
  PQ.adjust_heap_down (S fuel) first h len d =
  if bool_decide (h < (len - 1) / 2)
  then
    let k := if Event_gt (PQ.rd first (2 * (h + 1)) d) (PQ.rd first (2 * (h + 1) - 1) d)
             then 2 * (h + 1) - 1 else 2 * (h + 1) in
    PQ.adjust_heap_down fuel (<[h := PQ.rd first k d]> first) k len d
  else (first, h).
Proof. reflexivity. Qed.

(** A node may take the value of a child that is not after its sibling. *)
Lemma promote_child_heap first h k y :
  PQ.is_heap first -> h < length first ->
  (k = 2 * h + 1 \/ k = 2 * h + 2) -> first !! k = Some y ->
  (forall i z, i = 2 * h + 1 \/ i = 2 * h + 2 -> first !! i = Some z ->
     (time y <= time z)%Q) ->
  PQ.is_heap (<[h := y]> first).
Proof.
  intros Hheap Hh Hk Hy Hmin i a b Hi Hb Ha.
  assert (exists z, first !! h = Some z) as [z Hz] by by apply lookup_lt_ex.
  assert (time z <= time y)%Q as Hzy.
  { apply (Hheap k z y); [lia|done|].
    replace ((k - 1) / 2) with h by half_lia. done. }
  destruct (decide (i = h)) as [->|Hih].
  - rewrite list_lookup_insert_eq in Hb by done. injection Hb as <-.
    rewrite list_lookup_insert_ne in Ha by half_lia.
    eapply Qle_trans; [|exact Hzy]. eapply (Hheap h); eauto.
  - rewrite list_lookup_insert_ne in Hb by done.
    destruct (decide ((i - 1) / 2 = h)) as [E|E].
    + rewrite E in Ha. rewrite list_lookup_insert_eq in Ha by done.
      injection Ha as <-. apply (Hmin i); [half_lia|done].
    + rewrite list_lookup_insert_ne in Ha by done. eauto.
Qed.

Lemma adjust_heap_down_spec fuel first h len v :
  (len - 1) / 2 - h <= fuel ->
  PQ.is_heap first -> length first = len -> h < len ->
  exists first' h',
    PQ.adjust_heap_down fuel first h len v = (first', h') /\
    PQ.is_heap first' /\ length first' = len /\ h' < len /\
    (len - 1) / 2 <= h' /\
    <[h' := v]> first' ≡ₚ <[h := v]> first.
Proof.
  revert first h.
  induction fuel as [|fuel IH]; intros first h Hfuel Hheap Hlen Hh.
  - exists first, h. rewrite adjust_heap_down_O. repeat split; [done..|lia|done].
  - rewrite adjust_heap_down_S. case_bool_decide as Hc.
    + destruct (lookup_lt_ex first (2 * (h + 1))) as [a Ha]; [half_lia|].
      destruct (lookup_lt_ex first (2 * (h + 1) - 1)) as [b Hb]; [half_lia|].
      rewrite (rd_lookup _ _ _ _ Ha), (rd_lookup _ _ _ _ Hb).
      destruct (Event_gt a b) eqn:Hgt; cbv zeta.
      * rewrite (rd_lookup _ _ _ _ Hb).
        apply Event_gt_true, Qlt_le_weak in Hgt.
        destruct (IH (<[h := b]> first) (2 * (h + 1) - 1))
          as (first' & h' & -> & H1 & H2 & H3 & H4 & H5).
        { half_lia. }
        { apply (promote_child_heap first h (2 * (h + 1) - 1) b); [done|lia|lia|done|].
          intros i z [-> | ->] Hz.
          - replace (2 * h + 1) with (2 * (h + 1) - 1) in Hz by lia.
            rewrite Hb in Hz. injection Hz as <-. apply Qle_refl.
          - replace (2 * h + 2) with (2 * (h + 1)) in Hz by lia.
            rewrite Ha in Hz. by injection Hz as <-. }
        { by rewrite length_insert. }
        { half_lia. }
        exists first', h'. repeat split; [done..|].
        rewrite H5. apply hole_move; [lia..|done].
      * rewrite (rd_lookup _ _ _ _ Ha).
        apply Event_gt_false in Hgt.
        destruct (IH (<[h := a]> first) (2 * (h + 1)))
          as (first' & h' & -> & H1 & H2 & H3 & H4 & H5).
        { half_lia. }
        { apply (promote_child_heap first h (2 * (h + 1)) a); [done|lia|lia|done|].
          intros i z [-> | ->] Hz.
          - replace (2 * h + 1) with (2 * (h + 1) - 1) in Hz by lia.
            rewrite Hb in Hz. by injection Hz as <-.
          - replace (2 * h + 2) with (2 * (h + 1)) in Hz by lia.
            rewrite Ha in Hz. injection Hz as <-. apply Qle_refl. }
        { by rewrite length_insert. }
        { half_lia. }
        exists first', h'. repeat split; [done..|].
        rewrite H5. apply hole_move; [lia..|done].
    + exists first, h. repeat split; [done..|lia|done].
Qed.

Lemma even_or_odd len :
  (Nat.even len = true /\ exists k, len = 2 * k) \/
  (Nat.even len = false /\ exists k, len = 2 * k + 1).
Proof.
  destruct (Nat.even len) eqn:E.
  - left. split; [done|]. by apply Nat.even_spec in E.
  - right. split; [done|]. apply Nat.odd_spec. unfold Nat.odd. by rewrite E.
Qed.

Lemma adjust_heap_spec first len v :
  PQ.is_heap first -> length first = len -> 0 < len ->
  PQ.is_heap (PQ.adjust_heap first 0 len v) /\
  PQ.adjust_heap first 0 len v ≡ₚ <[0 := v]> first.
Proof.
  intros Hheap Hlen Hpos. unfold PQ.adjust_heap.
  destruct (adjust_heap_down_spec len first 0 len v)
    as (first1 & h1 & -> & H1 & H2 & H3 & H4 & H5); [half_lia|done..|].
  rewrite <- H5. clear H5.
  destruct (even_or_odd len) as [[-> [k Hk]]|[-> [k Hk]]].
  - case_bool_decide as Hsingle; cbn [andb].
    + destruct (lookup_lt_ex first1 (2 * (h1 + 1) - 1)) as [y Hy]; [half_lia|].
      rewrite (rd_lookup _ _ _ _ Hy). unfold PQ.push_heap_from.
      split.
      * apply push_heap_loop_heap; [lia|]. apply hole_heap_leaf.
        { apply (promote_child_heap first1 h1 (2 * (h1 + 1) - 1) y); [done|lia|lia|done|].
          intros i z [-> | ->] Hz.
          - replace (2 * h1 + 1) with (2 * (h1 + 1) - 1) in Hz by lia.
            rewrite Hy in Hz. injection Hz as <-. apply Qle_refl.
          - apply lookup_lt_Some in Hz. half_lia. }
        { rewrite length_insert. half_lia. }
        { rewrite length_insert. half_lia. }
      * rewrite push_heap_loop_perm; [|lia|rewrite length_insert; half_lia].
        apply hole_move; [lia..|done].
    + unfold PQ.push_heap_from. split.
      * apply push_heap_loop_heap; [lia|]. apply hole_heap_leaf; [done|lia|half_lia].
      * apply push_heap_loop_perm; lia.
  - cbn [andb]. unfold PQ.push_heap_from. split.
    + apply push_heap_loop_heap; [lia|]. apply hole_heap_leaf; [done|lia|half_lia].
    + apply push_heap_loop_perm; lia.
Qed.

(** *** [priority_queue::pop] *)

Lemma pop_nil : PQ.pop [] = [].
Proof. reflexivity. Qed.

Lemma pop_singleton x : PQ.pop [x] = [].
Proof. reflexivity. Qed.

Lemma pop_spec front rest :
  PQ.is_heap (front :: rest) ->
  PQ.is_heap (PQ.pop (front :: rest)) /\ PQ.pop (front :: rest) ≡ₚ rest.
Proof.
  intros Hheap. unfold PQ.pop. case_bool_decide as Hlen.
  - cbn [length] in *.
    replace (S (length rest) - 1) with (length rest) by lia.
    destruct (lookup_lt_ex (front :: rest) (length rest)) as [z Hz]; [simpl; lia|].
    rewrite (rd_lookup _ _ _ _ Hz).
    destruct (adjust_heap_spec (take (length rest) (front :: rest)) (length rest) z)
      as [H1 H2].
    { by apply is_heap_take. }
    { rewrite length_take. simpl. lia. }
    { lia. }
    split; [done|]. rewrite H2.
    destruct (length rest) as [|m] eqn:Hm; [lia|].
    cbn [take]. cbn [insert list_insert]. simpl in Hz.
    assert (rest = take m rest ++ [z]) as Hrest.
    { rewrite <- (take_S_r _ _ _ Hz). rewrite take_ge; [done|lia]. }
    rewrite Hrest at 2. by rewrite Permutation_app_comm.
  - simpl in Hlen. destruct rest; [|simpl in Hlen; lia].
    split; [apply is_heap_nil|done].
Qed.

Lemma pop_heap c : PQ.is_heap c -> PQ.is_heap (PQ.pop c).
Proof.
  destruct c as [|front rest]; intros Hc; [apply is_heap_nil|].
  by apply pop_spec.
Qed.

Lemma pop_perm c e : PQ.is_heap c -> PQ.top c = Some e -> e :: PQ.pop c ≡ₚ c.
Proof.
  destruct c as [|front rest]; intros Hc He; [done|].
  injection He as <-. f_equiv. by apply pop_spec.
Qed.

Lemma elem_of_pop c y : PQ.is_heap c -> y ∈ PQ.pop c -> y ∈ c.
Proof.
  destruct c as [|front rest]; intros Hc Hy; [done|].
  destruct (pop_spec front rest Hc) as [_ HP]. rewrite HP in Hy. by right.
Qed.

Lemma pop_length c : PQ.is_heap c -> length (PQ.pop c) = pred (length c).
Proof.
  destruct c as [|front rest]; intros Hc; [done|].
  destruct (pop_spec front rest Hc) as [_ HP]. by rewrite HP.
Qed.

(** Queues of one and two events, as the stalled line keeps them. *)

Lemma push_nil x : PQ.push x [] = [x].
Proof. reflexivity. Qed.

Lemma push_singleton x a :
  PQ.push x [a] = if Event_gt a x then [x; a] else [a; x].
Proof.
  unfold PQ.push, PQ.push_heap_from. cbn [length app].
  rewrite push_heap_loop_S. cbn. by destruct (Event_gt a x).
Qed.

Lemma pop_pair a b : PQ.pop [a; b] = [b].
Proof. reflexivity. Qed.

End HeapFacts.

(** ** The stage machine *)

Lemma getStageName_cases i :
  getStageName i = "machining" \/ getStageName i = "assembly" \/
  getStageName i = "quality_control" \/ getStageName i = "packaging" \/
  getStageName i = "unknown".
Proof. destruct i as [|[[| |]|[| |]|]|]; simpl; auto 6. Qed.

Lemma getStageName_machining i : getStageName i = "machining" -> i = 0.
Proof. destruct i as [|[[| |]|[| |]|]|]; simpl; intros E; done. Qed.

Section StageFacts.

Context {G : Type} `{RandomSource G}.
Implicit Types (s : ManufacturingSystem G) (product : Product).

Lemma set_processingTimes_same s : set_processingTimes (processingTimes s) s = s.
Proof. by destruct s. Qed.

(** The three outcomes of [handleNextStage], for a product type whose
    process plan is on record. *)

Lemma handleNextStage_out_of_range s product times :
  processingTimes s !! ptype product = Some times ->
  stage_in_range product times = false ->
  handleNextStage product s = s.
Proof.
  intros Ht Hr. unfold handleNextStage.
  rewrite (map_touch_present _ _ _ _ Ht), set_processingTimes_same.
  by rewrite (map_at_present _ _ _ _ Ht), Hr.
Qed.

Lemma handleNextStage_blocked s product times :
  processingTimes s !! ptype product = Some times ->
  stage_in_range product times = true ->
  map_at 0 (availableResources s) (getStageName (intermediateStage product)) <= 0 ->
  handleNextStage product s =
  set_resourceWaitingTime
    (<[getStageName (intermediateStage product) :=
         (map_at 0%Q (resourceWaitingTime s) (getStageName (intermediateStage product))
          + nth (Z.to_nat (intermediateStage product)) times 0%Q)%Q]>
       (resourceWaitingTime s))
    (set_availableResources
       (map_touch 0 (availableResources s) (getStageName (intermediateStage product))) s).
Proof.
  intros Ht Hr Hav. unfold handleNextStage.
  rewrite (map_touch_present _ _ _ _ Ht), set_processingTimes_same.
  rewrite (map_at_present _ _ _ _ Ht), Hr. cbn.
  rewrite map_at_touch.
  destruct (Z.ltb_spec 0 (map_at 0 (availableResources s)
                            (getStageName (intermediateStage product)))); [lia|done].
Qed.

Lemma handleNextStage_acquired s product times :
  processingTimes s !! ptype product = Some times ->
  stage_in_range product times = true ->
  0 < map_at 0 (availableResources s) (getStageName (intermediateStage product)) ->
  let stage := getStageName (intermediateStage product) in
  let processTime := nth (Z.to_nat (intermediateStage product)) times 0%Q in
  let setupTime := if intermediateStage product =? 0
                   then map_at 0%Q (machineSetupTimes s) (ptype product)
                   else 0%Q in
  let s1 := if intermediateStage product =? 0
            then set_machineSetupTimes
                   (map_touch 0%Q (machineSetupTimes s) (ptype product)) s
            else s in
  handleNextStage product s =
  set_resourceUsageTime
    (<[stage := (map_at 0%Q (resourceUsageTime s) stage + setupTime)%Q]>
       (resourceUsageTime s))
    (scheduleEvent (currentTime s + setupTime)%Q "setup"
       (ActSetup product processTime stage)
       (set_availableResources
          (<[stage := Int.decr (map_at 0 (availableResources s) stage)]>
             (availableResources s)) s1)).
Proof.
  intros Ht Hr Hav. unfold handleNextStage.
  rewrite (map_touch_present _ _ _ _ Ht), set_processingTimes_same.
  rewrite (map_at_present _ _ _ _ Ht), Hr. cbn.
  rewrite map_at_touch.
  destruct (Z.ltb_spec 0 (map_at 0 (availableResources s)
                            (getStageName (intermediateStage product)))); [|lia].
  assert (map_touch 0 (availableResources s) (getStageName (intermediateStage product))
          = availableResources s) as Htouch.
  { unfold map_touch, map_at in *.
    destruct (availableResources s !! getStageName (intermediateStage product));
      [done|simpl in *; lia]. }
  rewrite Htouch.
  destruct (intermediateStage product =? 0) eqn:E0; cbn.
  - rewrite map_at_touch. by destruct s.
  - by destruct s.
Qed.

End StageFacts.

Lemma map_touch_lookup {V : Type} (d : V) (m : gmap string V) k :
  map_touch d m k !! k = Some (map_at d m k).
Proof.
  unfold map_touch, map_at. destruct (m !! k) eqn:E; simpl.
  - done.
  - by rewrite lookup_insert_eq.
Qed.

Section StageProperties.

Context {G : Type} `{RandomSource G}.
Implicit Types (s : ManufacturingSystem G) (product : Product).

Lemma stage_names_not_configured (machineCount operatorCount : Z) i :
  (<["operators" := operatorCount]> (<["machines" := machineCount]> ∅) : gmap string Z)
    !! getStageName i = None.
Proof.
  destruct (getStageName_cases i) as [-> | [-> | [-> | [-> | ->]]]];
    by rewrite !lookup_insert_ne, lookup_empty.
Qed.


Lemma completeStage_usage s product :
  (map_at 0%Q (resourceUsageTime (completeStage product s))
     (getStageName (intermediateStage product))
   == map_at 0%Q (resourceUsageTime s) (getStageName (intermediateStage product)))%Q.
Proof.
  unfold completeStage. cbv zeta.
  set (stage := getStageName (intermediateStage product)).
  set (s1 := set_availableResources _ _).
  set (product' := {| ptype := _; intermediateStage := _ |}).
  set (s2 := set_processingTimes _ s1).
  assert (resourceUsageTime s2 = resourceUsageTime s) as Hu by done.
  assert (processingTimes s2 !! ptype product'
          = Some (map_at [] (processingTimes s2) (ptype product'))) as Ht.
  { unfold s2. cbn [processingTimes set_processingTimes].
    rewrite map_touch_lookup. f_equal. symmetry.
    apply map_at_present, map_touch_lookup. }
  clearbody s2. clear s1.
  destruct (stage_in_range product' _) eqn:Hr.
  - destruct (Z_lt_le_dec 0 (map_at 0 (availableResources s2)
                               (getStageName (intermediateStage product')))) as [Hav|Hav].
    + rewrite (handleNextStage_acquired s2 product' _ Ht Hr Hav).
      cbn [resourceUsageTime set_resourceUsageTime]. rewrite Hu.
      destruct (decide (getStageName (intermediateStage product') = stage)) as [E|E].
      * rewrite E, map_at_insert_eq.
        destruct (intermediateStage product' =? 0) eqn:E0.
        { apply Z.eqb_eq in E0. exfalso.
          rewrite E0 in E. symmetry in E. apply getStageName_machining in E.
          unfold product' in E0. cbn in E0. rewrite E in E0. done. }
        apply Qplus_0_r.
      * rewrite map_at_insert_ne by done. reflexivity.
    + rewrite (handleNextStage_blocked s2 product' _ Ht Hr Hav).
      cbn [resourceUsageTime set_resourceWaitingTime set_availableResources].
      rewrite Hu. reflexivity.
  - cbn [resourceUsageTime set_finishedProductsPerType set_finishedProducts].
    rewrite Hu. reflexivity.
Qed.

(** C7.  A setup time other than zero is used only for stage 0.  The setup
    time is added to the busy time of the stage by [handleNextStage], when the
    "setup" event is scheduled; the processing time is added when that event
    fires and schedules the completion event; the completion event itself
    adds nothing to the busy time of the stage it completes. *)
Theorem C7_setup_and_busy_time_accounting s product :
  (forall times,
     processingTimes s !! ptype product = Some times ->
     stage_in_range product times = true ->
     0 < map_at 0 (availableResources s) (getStageName (intermediateStage product)) ->
     let stage := getStageName (intermediateStage product) in
     let processTime := nth (Z.to_nat (intermediateStage product)) times 0%Q in
     let setupTime := if intermediateStage product =? 0
                      then map_at 0%Q (machineSetupTimes s) (ptype product)
                      else 0%Q in
     let s' := handleNextStage product s in
     (intermediateStage product <> 0 -> setupTime = 0%Q) /\
     eventQueue s' =
       PQ.push {| time := (currentTime s + setupTime)%Q; type := "setup";
                  action := ActSetup product processTime stage |} (eventQueue s) /\
     resourceUsageTime s' =
       <[stage := (map_at 0%Q (resourceUsageTime s) stage + setupTime)%Q]>
         (resourceUsageTime s)) /\
  (forall processTime stage,
     let s' := setupDone product processTime stage s in
     resourceUsageTime s' =
       <[stage := (map_at 0%Q (resourceUsageTime s) stage + processTime)%Q]>
         (resourceUsageTime s) /\
     eventQueue s' =
       PQ.push {| time := (currentTime s + processTime)%Q; type := stage;
                  action := ActCompleteStage product |} (eventQueue s)) /\
  (map_at 0%Q (resourceUsageTime (completeStage product s))
     (getStageName (intermediateStage product))
   == map_at 0%Q (resourceUsageTime s) (getStageName (intermediateStage product)))%Q.
Proof.
  split; [|split].
  - intros times Ht Hr Hav stage processTime setupTime s'. subst s'.
    rewrite (handleNextStage_acquired s product times Ht Hr Hav).
    fold stage processTime setupTime.
    split; [|split].
    + intros Hne. unfold setupTime.
      destruct (Z.eqb_spec (intermediateStage product) 0); [done|reflexivity].
    + cbn. by destruct (intermediateStage product =? 0).
    + cbn. by destruct (intermediateStage product =? 0).
  - intros processTime stage. by cbn.
  - apply completeStage_usage.
Qed.

End StageProperties.


Lemma C7_setup_and_busy_time_accounting_witness :
  let s := setResources capacities_by_stage (fresh []) in
  eventQueue (handleNextStage (productA 0) s) =
    [{| time := (0 + (1 # 2))%Q; type := "setup";
        action := ActSetup (productA 0) 2 "machining" |}] /\
  resourceUsageTime (handleNextStage (productA 0) s) =
    <["machining" := (0 + (1 # 2))%Q]> (resourceUsageTime s).
Proof.
  intros s.
  destruct (proj1 (@C7_setup_and_busy_time_accounting (list Q) s (productA 0))
              [2; 3 # 2; 1; 1]%Q eq_refl eq_refl eq_refl) as (_ & Hq & Hu).
  split; [exact Hq|exact Hu].
Defined.

(** ** The driver *)

Section DriverFacts.

Context {G : Type} `{RandomSource G}.
Implicit Types (s : ManufacturingSystem G) (product : Product).

(** What the handlers leave alone. *)

Lemma handleNextStage_frame s product :
  let s' := handleNextStage product s in
  currentTime s' = currentTime s /\ generator s' = generator s /\
  resources s' = resources s /\ shiftLength s' = shiftLength s /\
  console s' = console s /\ finishedProducts s' = finishedProducts s /\
  finishedProductsPerType s' = finishedProductsPerType s /\
  rawMaterialCount s' = rawMaterialCount s /\ productQueue s' = productQueue s.
Proof.
  unfold handleNextStage. cbv zeta.
  repeat (case_match; cbn); repeat split; done.
Qed.

Lemma currentTime_handleNextStage s product :
  currentTime (handleNextStage product s) = currentTime s.
Proof. apply handleNextStage_frame. Qed.

Lemma currentTime_completeStage s product :
  currentTime (completeStage product s) = currentTime s.
Proof.
  unfold completeStage. cbv zeta. case_match.
  - by rewrite currentTime_handleNextStage.
  - done.
Qed.

Lemma currentTime_invoke s a : currentTime (invoke a s) = currentTime s.
Proof.
  destruct a; cbn [invoke].
  - unfold handleRawMaterialArrival. cbv zeta.
    destruct (sample_interarrival _) as [d g].
    by rewrite currentTime_handleNextStage.
  - done.
  - apply currentTime_completeStage.
  - done.
  - done.
Qed.

Lemma loop_test_true runTime s :
  loop_test runTime s = true <-> eventQueue s <> [] /\ (currentTime s < runTime)%Q.
Proof.
  unfold loop_test. rewrite andb_true_iff, Qltb_true.
  destruct (eventQueue s); cbn; split; intros [? ?]; split; done.
Qed.

Lemma loop_test_false runTime s :
  loop_test runTime s = false <-> eventQueue s = [] \/ (runTime <= currentTime s)%Q.
Proof.
  unfold loop_test. rewrite andb_false_iff, Qltb_false.
  destruct (eventQueue s); cbn; split; intros [?|?]; auto; done.
Qed.

Lemma loop_body_top s e :
  PQ.top (eventQueue s) = Some e ->
  loop_body s =
  invoke (action e) (set_currentTime (time e) (set_eventQueue (PQ.pop (eventQueue s)) s)).
Proof. unfold loop_body. by intros ->. Qed.

Lemma currentTime_loop_body s e :
  PQ.top (eventQueue s) = Some e -> currentTime (loop_body s) = time e.
Proof. intros He. rewrite (loop_body_top s e He). by rewrite currentTime_invoke. Qed.

Lemma run_loop_S n runTime s :
  run_loop (S n) runTime s =
  if loop_test runTime s then run_loop n runTime (loop_body s) else s.
Proof. reflexivity. Qed.

Lemma run_loop_done n runTime s : loop_test runTime s = false -> run_loop n runTime s = s.
Proof. intros Hd. destruct n; [done|]. by rewrite run_loop_S, Hd. Qed.

(** Once the loop has exited, further iterations change nothing. *)
Lemma run_loop_finished_stable n m runTime s :
  finished runTime (run_loop n runTime s) -> (n <= m)%nat ->
  run_loop m runTime s = run_loop n runTime s.
Proof.
  unfold finished. revert m s. induction n as [|n IH]; intros m s Hfin Hle.
  - cbn in Hfin |- *. by apply run_loop_done.
  - destruct m as [|m]; [lia|]. rewrite !run_loop_S in *.
    destruct (loop_test runTime s); [|done]. apply IH; [done|lia].
Qed.

Lemma run_loop_finished_unique n m runTime s :
  finished runTime (run_loop n runTime s) -> finished runTime (run_loop m runTime s) ->
  run_loop n runTime s = run_loop m runTime s.
Proof.
  intros Hn Hm. destruct (Nat.le_ge_cases n m).
  - symmetry. by apply run_loop_finished_stable.
  - by apply run_loop_finished_stable.
Qed.

(** C5 (as the code has it).  [scheduleEvent] pushes the event whatever its
    time, also a time before the current one: the event is in the queue
    afterwards, the queue is one longer, holds what it held, and nothing else
    of the system changes.  No error is signalled. *)
Theorem C5_scheduleEvent_always_inserts s (t : Q) (ty : string) (a : Action) :
  let e := {| time := t; type := ty; action := a |} in
  let s' := scheduleEvent t ty a s in
  eventQueue s' = PQ.push e (eventQueue s) /\
  e ∈ eventQueue s' /\
  eventQueue s' ≡ₚ e :: eventQueue s /\
  length (eventQueue s') = S (length (eventQueue s)) /\
  s' = set_eventQueue (eventQueue s') s.
Proof.
  intros e s'. subst s'. unfold scheduleEvent. cbn. fold e.
  repeat split.
  - apply elem_of_push. by left.
  - apply push_perm.
  - apply push_length.
Qed.

End DriverFacts.

(** C5 (as the specification has it) fails: after a run up to time 24, the
    shift-change event of time 8 that a second call of [runSimulation] would
    schedule lies in the past; the contract refuses it, the code inserts it. *)
Lemma C5_scheduling_into_the_past_is_accepted :
  let s := @runScenario _ (Scripted []) 0 10 5 40 24 in
  let e := {| time := 8; type := "shift_change"; action := ActShiftChange |} in
  (8 < currentTime s)%Q /\
  schedule_checked 8 "shift_change" ActShiftChange s = inl InvalidTimeError /\
  e ∈ eventQueue (scheduleEvent 8 "shift_change" ActShiftChange s) /\
  eventQueue (scheduleEvent 8 "shift_change" ActShiftChange s) <> eventQueue s.
Proof.
  intros s e. split; [|split; [|split]].
  - vm_compute. reflexivity.
  - vm_compute. reflexivity.
  - apply list_elem_of_In. vm_compute. auto.
  - intros E. apply (f_equal length) in E. vm_compute in E. discriminate.
Qed.

(** C8.  The loop runs while the queue is not empty and the clock is before
    the bound, a test made at the top of each iteration only.  An iteration
    takes the root of the heap, an event of least time among the pending
    ones, removes it and nothing else from the queue (which stays a heap),
    sets the clock to its time and then runs its action on that state.  The
    time of the event is not compared with the bound: in the run exhibited,
    the last event executed has time 16 with bound 10, and the clock ends at
    16. *)
Theorem C8_driver_loop :
  (forall (G : Type) (R : RandomSource G) (runTime : Q) (s : ManufacturingSystem G),
     (loop_test runTime s = true <->
        eventQueue s <> [] /\ (currentTime s < runTime)%Q) /\
     (forall n, run_loop (S n) runTime s =
        if loop_test runTime s then run_loop n runTime (loop_body s) else s) /\
     (forall e, PQ.is_heap (eventQueue s) -> PQ.top (eventQueue s) = Some e ->
        (forall e', e' ∈ eventQueue s -> (time e <= time e')%Q) /\
        e :: PQ.pop (eventQueue s) ≡ₚ eventQueue s /\
        PQ.is_heap (PQ.pop (eventQueue s)) /\
        loop_body s =
          invoke (action e)
            (set_currentTime (time e) (set_eventQueue (PQ.pop (eventQueue s)) s)) /\
        currentTime (loop_body s) = time e)) /\
  (exists n e,
     let runTime := 10%Q in
     let s := @runScenario _ (Scripted [1; 20]%Q) 0 10 5 n runTime in
     loop_test runTime s = true /\
     PQ.top (eventQueue s) = Some e /\
     (runTime < time e)%Q /\
     currentTime (run_loop (R := Scripted [1; 20]%Q) 1 runTime s) = time e /\
     finished runTime (run_loop (R := Scripted [1; 20]%Q) 1 runTime s)).
Proof.
  split.
  - intros G R runTime s. split; [apply loop_test_true|]. split; [done|].
    intros e Hheap He. split; [|split; [|split; [|split]]].
    + by apply is_heap_top_min.
    + by apply pop_perm.
    + by apply pop_heap.
    + by apply loop_body_top.
    + by apply currentTime_loop_body.
  - exists 2%nat,
      {| time := 16; type := "shift_change"; action := ActShiftChange |}.
    cbv zeta. repeat split; vm_compute; reflexivity.
Qed.

Lemma C8_driver_loop_witness :
  let s := @seedEvents _ (Scripted []) (fresh []) in
  let e := {| time := 1; type := "raw_material_arrival";
              action := ActRawMaterialArrival "ProductA" |} in
  e :: PQ.pop (eventQueue s) ≡ₚ eventQueue s /\
  currentTime (loop_body (R := Scripted []) s) = 1%Q.
Proof.
  intros s e.
  destruct (proj1 C8_driver_loop (list Q) (Scripted []) 24%Q s) as (_ & _ & Hpop).
  destruct (Hpop e) as (_ & Hperm & _ & _ & Hclock).
  - intros i x y Hi Hy Hx. destruct i as [|[|i]]; [lia| |done].
    vm_compute in Hy, Hx. injection Hy as <-. injection Hx as <-. vm_compute. discriminate.
  - reflexivity.
  - split; [exact Hperm|exact Hclock].
Defined.

(** ** The handlers, case by case *)

Section HandlerCases.

Context {G : Type} `{RandomSource G}.
Implicit Types (s : ManufacturingSystem G) (product : Product).

(** [handleNextStage] does one of three things: nothing (the stage index is
    past the plan of the type), the waiting branch, or the acquisition. *)
Lemma handleNextStage_cases s product :
  let s0 := set_processingTimes
              (map_touch [] (processingTimes s) (ptype product)) s in
  let times := map_at [] (processingTimes s) (ptype product) in
  let stage := getStageName (intermediateStage product) in
  let processTime := nth (Z.to_nat (intermediateStage product)) times 0%Q in
  let setupTime := if intermediateStage product =? 0
                   then map_at 0%Q (machineSetupTimes s) (ptype product)
                   else 0%Q in
  (stage_in_range product times = false /\ handleNextStage product s = s0) \/
  (stage_in_range product times = true /\
   map_at 0 (availableResources s) stage <= 0 /\
   handleNextStage product s =
     set_resourceWaitingTime
       (<[stage := (map_at 0%Q (resourceWaitingTime s) stage + processTime)%Q]>
          (resourceWaitingTime s))
       (set_availableResources (map_touch 0 (availableResources s) stage) s0)) \/
  (stage_in_range product times = true /\
   0 < map_at 0 (availableResources s) stage /\
   handleNextStage product s =
     set_resourceUsageTime
       (<[stage := (map_at 0%Q (resourceUsageTime s) stage + setupTime)%Q]>
          (resourceUsageTime s))
       (scheduleEvent (currentTime s + setupTime)%Q "setup"
          (ActSetup product processTime stage)
          (set_availableResources
             (<[stage := Int.decr (map_at 0 (availableResources s) stage)]>
                (availableResources s))
             (if intermediateStage product =? 0
              then set_machineSetupTimes
                     (map_touch 0%Q (machineSetupTimes s) (ptype product)) s0
              else s0)))).
Proof.
  intros s0 times stage processTime setupTime.
  unfold handleNextStage. cbv zeta.
  cbn [processingTimes set_processingTimes]. rewrite map_at_touch.
  fold times stage processTime s0.
  destruct (stage_in_range product times); [|by left].
  right.
  cbn [availableResources set_availableResources]. rewrite map_at_touch.
  replace (availableResources s0) with (availableResources s) by done.
  replace (resourceWaitingTime (set_availableResources
             (map_touch 0 (availableResources s) stage) s0))
    with (resourceWaitingTime s) by done.
  destruct (Z.ltb_spec 0 (map_at 0 (availableResources s) stage)) as [Hav|Hav].
  - right. split; [done|]. split; [done|].
    assert (map_touch 0 (availableResources s) stage = availableResources s) as ->.
    { unfold map_touch, map_at in *.
      destruct (availableResources s !! stage); [done|simpl in *; lia]. }
    unfold setupTime.
    destruct (intermediateStage product =? 0); cbn.
    + rewrite map_at_touch. by destruct s.
    + by destruct s.
  - left. done.
Qed.

End HandlerCases.

(** ** The stalled line *)

Section Stalled.

Context {G : Type} `{RandomSource G}.
Implicit Types (s : ManufacturingSystem G) (product : Product).

Lemma stalled_handleNextStage s product :
  stalled s ->
  stalled (handleNextStage product s) /\
  eventQueue (handleNextStage product s) = eventQueue s /\
  finishedProducts (handleNextStage product s) = finishedProducts s.
Proof.
  intros (Hheap & Hgen & Hav & Hres).
  destruct (handleNextStage_cases s product) as [[_ ->]|[(_ & _ & ->)|(_ & Hpos & _)]].
  - repeat split; done.
  - repeat split; cbn; try done.
    intros i. rewrite map_at_touch. apply Hav.
  - specialize (Hav (intermediateStage product)). lia.
Qed.

Lemma stalled_schedule s t ty a :
  stalled s -> generator_action a -> stalled (scheduleEvent t ty a s).
Proof.
  intros (Hheap & Hgen & Hav & Hres) Ha. repeat split; cbn; try done.
  - by apply push_heap.
  - intros e [->|He]%elem_of_push; [done|]. by apply Hgen.
Qed.

Lemma stalled_invoke s a :
  stalled s -> generator_action a ->
  stalled (invoke a s) /\ finishedProducts (invoke a s) = finishedProducts s.
Proof.
  intros Hs Ha. destruct a; try done; cbn [invoke].
  - unfold handleRawMaterialArrival. cbv zeta.
    destruct (sample_interarrival _) as [d g].
    match goal with |- context [handleNextStage ?p ?s1] =>
      destruct (stalled_handleNextStage s1 p) as (H1 & _ & H3) end.
    { apply stalled_schedule; [|done].
      destruct Hs as (Hheap & Hgen & Hav & Hres). repeat split; done. }
    split; [done|]. by rewrite H3.
  - unfold handleShiftChange. cbv zeta. split; [|done].
    apply stalled_schedule; [|done].
    destruct Hs as (Hheap & Hgen & Hav & Hres). repeat split; done.
Qed.

Lemma stalled_loop_body s :
  stalled s ->
  stalled (loop_body s) /\ finishedProducts (loop_body s) = finishedProducts s.
Proof.
  intros Hs. unfold loop_body.
  destruct (PQ.top (eventQueue s)) as [e|] eqn:He; [|done].
  destruct Hs as (Hheap & Hgen & Hav & Hres).
  destruct (stalled_invoke
              (set_currentTime (time e) (set_eventQueue (PQ.pop (eventQueue s)) s))
              (action e)) as [H1 H2].
  - repeat split; cbn; try done.
    + by apply pop_heap.
    + intros e' He'. apply Hgen. by apply elem_of_pop.
  - apply Hgen. destruct (eventQueue s); [done|]. injection He as <-. by left.
  - done.
Qed.

Lemma stalled_run_loop n runTime s :
  stalled s ->
  stalled (run_loop n runTime s) /\
  finishedProducts (run_loop n runTime s) = finishedProducts s.
Proof.
  revert s. induction n as [|n IH]; intros s Hs; [done|].
  rewrite run_loop_S. destruct (loop_test runTime s); [|done].
  destruct (stalled_loop_body s Hs) as [H1 H2].
  destruct (IH _ H1) as [H3 H4]. split; [done|]. by rewrite H4.
Qed.

Lemma stalled_seedEvents s : stalled s -> stalled (seedEvents s).
Proof.
  intros Hs. unfold seedEvents.
  destruct (sample_interarrival _) as [d g].
  apply stalled_schedule; [|done]. apply stalled_schedule; [|done].
  destruct Hs as (Hheap & Hgen & Hav & Hres). repeat split; done.
Qed.

(** A system configured by [runScenario] is stalled from the start: its
    resources are called "machines" and "operators", its stages are not. *)
Lemma stalled_scenario epoch machineCount operatorCount :
  stalled (setResources
             (<["operators" := operatorCount]> (<["machines" := machineCount]> ∅))
             (ManufacturingSystem_new epoch : ManufacturingSystem G)).
Proof.
  repeat split; cbn.
  - apply is_heap_nil.
  - intros e He. by apply elem_of_nil in He.
  - intros i. by rewrite (map_at_absent _ _ _ (stage_names_not_configured _ _ i)).
  - intros i. by rewrite (map_at_absent _ _ _ (stage_names_not_configured _ _ i)).
Qed.

(** C1 (what the code does).  In every scenario of [runScenario], whatever
    the counts of machines and operators, the samples drawn and the length of
    the run, no product is ever finished: the count stays 0. *)
Theorem C1_scenario_finishes_nothing
    (epoch machineCount operatorCount : Z) (n : nat) (runTime : Q) :
  finishedProducts (runScenario epoch machineCount operatorCount n runTime) = 0.
Proof.
  unfold runScenario, runSimulation.
  destruct (stalled_run_loop n runTime
              (seedEvents
                 (setResources
                    (<["operators" := operatorCount]> (<["machines" := machineCount]> ∅))
                    (ManufacturingSystem_new epoch)))) as [_ ->].
  - apply stalled_seedEvents, stalled_scenario.
  - unfold seedEvents. destruct (sample_interarrival _). reflexivity.
Qed.

End Stalled.

(** The first scenario of [main], with an arrival every time unit: the loop
    ends with the clock at 1000 after 999 arrivals, every unit waiting for
    machining, and nothing finished. *)
Example scenario_10_5_run_to_1000 :
  let s := runScenario (R := Scripted []) 0 10 5 1200 1000 in
  finished 1000 s /\ currentTime s = 1000%Q /\ rawMaterialCount s = 999 /\
  map_at 0%Q (resourceWaitingTime s) "machining" = 1998%Q /\
  finishedProducts s = 0.
Proof. vm_compute. repeat split; reflexivity. Qed.

(** ** Events come out in the order of their times *)

Lemma Qle_plus_nonneg (t d : Q) : (0 <= d)%Q -> (t <= t + d)%Q.
Proof.
  intros Hd. rewrite <- (Qplus_0_r t) at 1. apply Qplus_le_r. exact Hd.
Qed.

Lemma nth_nonneg (times : list Q) (i : nat) :
  (forall t, t ∈ times -> (0 <= t)%Q) -> (0 <= nth i times 0%Q)%Q.
Proof.
  intros Hall. rewrite nth_lookup. destruct (times !! i) as [t|] eqn:E; cbn.
  - apply Hall. by eapply list_elem_of_lookup_2.
  - apply Qle_refl.
Qed.

Section SchedInv.

Context {G : Type} `{RandomSource G}.
Implicit Types (s : ManufacturingSystem G) (product : Product).

Lemma sched_inv_schedule s t ty a :
  sched_inv s -> (currentTime s <= t)%Q -> setup_time_ok a ->
  sched_inv (scheduleEvent t ty a s).
Proof.
  intros (Hheap & Hq & Hpt & Hst & Hsh) Ht Ha.
  split; [|split; [|done]]; cbn.
  - by apply push_heap.
  - intros e [->|He]%elem_of_push; [done|]. by apply Hq.
Qed.

Lemma times_ok_touch (m : gmap string (list Q)) k :
  (forall ty times t, m !! ty = Some times -> t ∈ times -> (0 <= t)%Q) ->
  forall ty times t, map_touch [] m k !! ty = Some times -> t ∈ times -> (0 <= t)%Q.
Proof.
  intros Hm ty times t. unfold map_touch. destruct (m !! k) eqn:E; [apply Hm|].
  destruct (decide (k = ty)) as [->|Hne].
  - rewrite lookup_insert_eq. intros [= <-] Ht. by apply elem_of_nil in Ht.
  - rewrite lookup_insert_ne by done. apply Hm.
Qed.

Lemma setup_ok_touch (m : gmap string Q) k :
  (forall ty d, m !! ty = Some d -> (0 <= d)%Q) ->
  forall ty d, map_touch 0%Q m k !! ty = Some d -> (0 <= d)%Q.
Proof.
  intros Hm ty d. unfold map_touch. destruct (m !! k) eqn:E; [apply Hm|].
  destruct (decide (k = ty)) as [->|Hne].
  - rewrite lookup_insert_eq. intros [= <-]. apply Qle_refl.
  - rewrite lookup_insert_ne by done. apply Hm.
Qed.

Lemma map_at_times_ok (m : gmap string (list Q)) k :
  (forall ty times t, m !! ty = Some times -> t ∈ times -> (0 <= t)%Q) ->
  forall t, t ∈ map_at [] m k -> (0 <= t)%Q.
Proof.
  intros Hm t. unfold map_at. destruct (m !! k) eqn:E; cbn.
  - intros Ht. by eapply Hm.
  - intros Ht. by apply elem_of_nil in Ht.
Qed.

Lemma map_at_setup_ok (m : gmap string Q) k :
  (forall ty d, m !! ty = Some d -> (0 <= d)%Q) -> (0 <= map_at 0%Q m k)%Q.
Proof.
  intros Hm. unfold map_at. destruct (m !! k) eqn:E; cbn.
  - by eapply Hm.
  - apply Qle_refl.
Qed.

Lemma sched_inv_handleNextStage s product :
  sched_inv s -> sched_inv (handleNextStage product s).
Proof.
  intros (Hheap & Hq & Hpt & Hst & Hsh).
  pose proof (times_ok_touch _ (ptype product) Hpt) as Hpt'.
  pose proof (setup_ok_touch _ (ptype product) Hst) as Hst'.
  destruct (handleNextStage_cases s product)
    as [[_ ->]|[(_ & _ & ->)|(_ & _ & ->)]].
  - split; [exact Hheap|]. split; [exact Hq|]. split; [exact Hpt'|].
    split; [exact Hst|exact Hsh].
  - split; [exact Hheap|]. split; [exact Hq|]. split; [exact Hpt'|].
    split; [exact Hst|exact Hsh].
  - assert (0 <= nth (Z.to_nat (intermediateStage product))
                   (map_at [] (processingTimes s) (ptype product)) 0)%Q as Hproc.
    { apply nth_nonneg. by apply map_at_times_ok. }
    pose proof (map_at_setup_ok _ (ptype product) Hst) as Hsetup.
    destruct (intermediateStage product =? 0).
    + split; [by apply push_heap|]. split; [|split; [exact Hpt'|]].
      * intros e [->|He]%elem_of_push; [|by apply Hq].
        split; [|exact Hproc]. by apply Qle_plus_nonneg.
      * split; [exact Hst'|exact Hsh].
    + split; [by apply push_heap|]. split; [|split; [exact Hpt'|]].
      * intros e [->|He]%elem_of_push; [|by apply Hq].
        split; [|exact Hproc]. apply Qle_plus_nonneg, Qle_refl.
      * split; [exact Hst|exact Hsh].
Qed.

Lemma sched_inv_completeStage s product :
  sched_inv s -> sched_inv (completeStage product s).
Proof.
  intros (Hheap & Hq & Hpt & Hst & Hsh). unfold completeStage. cbv zeta.
  pose proof (times_ok_touch _ (ptype product) Hpt) as Hpt'.
  case_match.
  - apply sched_inv_handleNextStage.
    split; [exact Hheap|]. split; [exact Hq|]. split; [exact Hpt'|].
    split; [exact Hst|exact Hsh].
  - split; [exact Hheap|]. split; [exact Hq|]. split; [exact Hpt'|].
    split; [exact Hst|exact Hsh].
Qed.

Lemma sched_inv_fields s s' :
  eventQueue s' = eventQueue s -> currentTime s' = currentTime s ->
  processingTimes s' = processingTimes s ->
  machineSetupTimes s' = machineSetupTimes s -> shiftLength s' = shiftLength s ->
  sched_inv s -> sched_inv s'.
Proof. unfold sched_inv. by intros -> -> -> -> ->. Qed.

Lemma handleRawMaterialArrival_eq productType s :
  handleRawMaterialArrival productType s =
  handleNextStage {| ptype := productType; intermediateStage := 0 |}
    (scheduleEvent (currentTime s + fst (sample_interarrival (generator s)))%Q
       "raw_material_arrival" (ActRawMaterialArrival productType)
       (set_generator (snd (sample_interarrival (generator s)))
          (print (LogArrival productType (currentTime s))
             (set_productQueue
                (productQueue s ++ [{| ptype := productType; intermediateStage := 0 |}])
                (set_rawMaterialCount (Int.incr (rawMaterialCount s)) s))))).
Proof.
  unfold handleRawMaterialArrival. cbn.
  by destruct (sample_interarrival (generator s)).
Qed.

Lemma sched_inv_invoke s a :
  nonneg_samples G -> sched_inv s -> setup_time_ok a -> sched_inv (invoke a s).
Proof.
  intros Hsamples Hs Ha. destruct a; cbn [invoke].
  - rewrite handleRawMaterialArrival_eq.
    apply sched_inv_handleNextStage. apply sched_inv_schedule; [|cbn|done].
    + by apply (sched_inv_fields s).
    + apply Qle_plus_nonneg, Hsamples.
  - unfold setupDone. cbv zeta. apply sched_inv_schedule; [|cbn|done].
    + by apply (sched_inv_fields s).
    + by apply Qle_plus_nonneg.
  - by apply sched_inv_completeStage.
  - by apply (sched_inv_fields s).
  - unfold handleShiftChange. cbv zeta. apply sched_inv_schedule; [|cbn|done].
    + by apply (sched_inv_fields s).
    + apply Qle_plus_nonneg.
      destruct Hs as (_ & _ & _ & _ & Hsh).
      unfold Qle, inject_Z. cbn. lia.
Qed.

Lemma sched_inv_loop_body s e :
  nonneg_samples G -> sched_inv s -> PQ.top (eventQueue s) = Some e ->
  sched_inv (loop_body s) /\ (currentTime s <= time e)%Q.
Proof.
  intros Hsamples Hs He.
  pose proof Hs as (Hheap & Hq & Hpt & Hst & Hsh).
  assert (e ∈ eventQueue s) as Hin.
  { destruct (eventQueue s); [done|]. injection He as <-. by left. }
  split; [|by apply Hq].
  rewrite (loop_body_top s e He). apply sched_inv_invoke; [done| |by apply Hq].
  split; [by apply pop_heap|]. split; [|done].
  intros e' He'. apply elem_of_pop in He'; [|done]. split.
  - by apply (is_heap_top_min _ _ Hheap He).
  - by apply Hq.
Qed.

Lemma popped_nondecreasing_from n runTime s :
  nonneg_samples G -> sched_inv s ->
  nondecreasing_from (currentTime s) (popped n runTime s).
Proof.
  intros Hsamples. revert s. induction n as [|n IH]; intros s Hs; [done|].
  cbn [popped]. destruct (loop_test runTime s); [|done].
  destruct (PQ.top (eventQueue s)) as [e|] eqn:He; [|done].
  destruct (sched_inv_loop_body s e Hsamples Hs He) as [Hs' Hle].
  split; [done|]. rewrite <- (currentTime_loop_body s e He). by apply IH.
Qed.

Lemma nondecreasing_from_weaken t l : nondecreasing_from t l -> nondecreasing l.
Proof. destruct l as [|e l]; [done|]. by intros [_ Hl]. Qed.

Lemma seedEvents_eq s :
  seedEvents s =
  scheduleEvent (inject_Z (shiftLength s)) "shift_change" ActShiftChange
    (scheduleEvent (fst (sample_interarrival (generator s)))
       "raw_material_arrival" (ActRawMaterialArrival "ProductA")
       (set_generator (snd (sample_interarrival (generator s))) s)).
Proof.
  unfold seedEvents. by destruct (sample_interarrival (generator s)).
Qed.

Lemma sched_inv_seedEvents s :
  nonneg_samples G -> sched_inv s -> (currentTime s <= 0)%Q ->
  sched_inv (seedEvents s).
Proof.
  intros Hsamples Hs Hzero. rewrite seedEvents_eq.
  apply sched_inv_schedule; [apply sched_inv_schedule| |done].
  - by apply (sched_inv_fields s).
  - cbn. eapply Qle_trans; [exact Hzero|]. apply Hsamples.
  - done.
  - cbn. eapply Qle_trans; [exact Hzero|].
    destruct Hs as (_ & _ & _ & _ & Hsh). unfold Qle, inject_Z. cbn. lia.
Qed.

Lemma sched_inv_new epoch (capacities : gmap string Z) :
  sched_inv (setResources capacities
               (ManufacturingSystem_new epoch : ManufacturingSystem G)).
Proof.
  split; [apply is_heap_nil|]. split; [|split; [|split; [|done]]]; cbn.
  - intros e He. by apply elem_of_nil in He.
  - intros ty times t Hty Ht.
    apply lookup_insert_Some in Hty as [[_ <-]|[_ Hty]].
    { repeat (apply elem_of_cons in Ht as [->|Ht]; [done|]).
      by apply elem_of_nil in Ht. }
    apply lookup_insert_Some in Hty as [[_ <-]|[_ Hty]]; [|done].
    repeat (apply elem_of_cons in Ht as [->|Ht]; [done|]).
    by apply elem_of_nil in Ht.
  - intros ty d Hty.
    apply lookup_insert_Some in Hty as [[_ <-]|[_ Hty]]; [done|].
    apply lookup_insert_Some in Hty as [[_ <-]|[_ Hty]]; done.
Qed.

(** C4 (as the code has it).  If no sample of the random source is
    negative, the events popped by a run come out in non-decreasing order of
    time: from any state whose queue is a heap of events not in the past, and
    so in every run of a freshly constructed and configured system.  Between
    events of equal time the heap decides; when the queue holds one event
    and no other, an event of the same or a later time pushed then comes out
    after it. *)
Theorem C4_pops_nondecreasing_in_time :
  nonneg_samples G ->
  (forall s n runTime, sched_inv s -> nondecreasing (popped n runTime s)) /\
  (forall epoch (capacities : gmap string Z) n runTime,
     nondecreasing
       (popped n runTime
          (seedEvents (setResources capacities (ManufacturingSystem_new epoch))))) /\
  (forall a x, (time a <= time x)%Q -> PQ.drain 2 (PQ.push x [a]) = [a; x]).
Proof.
  intros Hsamples. split; [|split].
  - intros s n runTime Hs.
    eapply nondecreasing_from_weaken. by apply popped_nondecreasing_from.
  - intros epoch capacities n runTime.
    eapply nondecreasing_from_weaken. apply popped_nondecreasing_from; [done|].
    apply sched_inv_seedEvents; [done|apply sched_inv_new|cbn; apply Qle_refl].
  - intros a x Hle. rewrite push_singleton.
    apply Event_gt_false in Hle. by rewrite Hle.
Qed.

End SchedInv.

Lemma Lcg_nonneg_samples : @nonneg_samples Z Lcg.
Proof.
  intros g. cbn.
  assert (0 <= g mod 8 < 8) as Hm by (apply Z.mod_pos_bound; lia).
  unfold Qle, Qdiv, Qmult, Qinv, inject_Z. cbn. lia.
Qed.

Lemma C4_pops_nondecreasing_in_time_witness :
  nondecreasing
    (popped (R := Lcg) 50 24
       (seedEvents (R := Lcg)
          (setResources capacities_by_stage (ManufacturingSystem_new (R := Lcg) 5)))).
Proof.
  exact (proj1 (proj2 (@C4_pops_nondecreasing_in_time Z Lcg Lcg_nonneg_samples))
           5 capacities_by_stage 50%nat 24%Q).
Defined.

(** C4 (as the specification has it) fails on ties.  Four breakdowns are
    reported in the order machines, operators, press, oven; their four
    maintenance events all have time 5; the run pops the event of the press
    before the event of the operators. *)
Lemma C4_equal_times_not_in_schedule_order :
  let es := [maintenance_at_5 "machines"; maintenance_at_5 "operators";
             maintenance_at_5 "press"; maintenance_at_5 "oven"] in
  let out := popped (R := Scripted []) 4 100
               (seedEvents (R := Scripted []) four_breakdowns) in
  eventQueue four_breakdowns = foldl (fun c e => PQ.push e c) [] es /\
  out = [maintenance_at_5 "machines"; maintenance_at_5 "press";
         maintenance_at_5 "operators"; maintenance_at_5 "oven"] /\
  ~ ties_in_schedule_order es out.
Proof.
  intros es out.
  assert (out = [maintenance_at_5 "machines"; maintenance_at_5 "press";
                 maintenance_at_5 "operators"; maintenance_at_5 "oven"]) as Hout
    by (vm_compute; reflexivity).
  split; [vm_compute; reflexivity|]. split; [exact Hout|].
  intros Hfifo.
  destruct (Hfifo 1%nat 2%nat (maintenance_at_5 "operators") (maintenance_at_5 "press"))
    as (p & q & Hpq & Hp & Hq); [lia|done|done|reflexivity|].
  rewrite Hout in Hp, Hq.
  destruct p as [|[|[|[|p]]]]; try discriminate Hp.
  destruct q as [|[|[|[|q]]]]; try discriminate Hq.
  lia.
Qed.

(** ** Available counts and capacities *)

Lemma map_at_insert {V : Type} (d : V) (m : gmap string V) k k' v :
  map_at d (<[k := v]> m) k' = if decide (k = k') then v else map_at d m k'.
Proof.
  case_decide as E.
  - subst. apply map_at_insert_eq.
  - by apply map_at_insert_ne.
Qed.

Lemma map_at_Forall (P : Z -> Prop) (m : gmap string Z) r :
  P 0 -> map_Forall (fun _ v => P v) m -> P (map_at 0 m r).
Proof.
  intros H0 Hm. unfold map_at. destruct (m !! r) as [v|] eqn:E; cbn; [|done].
  by apply (Hm r v).
Qed.

Section Counts.

Context {G : Type} `{RandomSource G}.
Implicit Types (s : ManufacturingSystem G) (product : Product).

Lemma counts_within_weaken m m' s :
  m' <= m -> counts_within m s -> counts_within m' s.
Proof.
  intros Hle [Hav Hres]. split; intros r.
  - specialize (Hav r). lia.
  - specialize (Hres r). lia.
Qed.

Lemma counts_within_fields s s' m :
  availableResources s' = availableResources s -> resources s' = resources s ->
  counts_within m s -> counts_within m s'.
Proof. unfold counts_within. by intros -> ->. Qed.

(** An acquisition attempt never raises a count, and lowers one only from a
    positive value. *)
Lemma handleNextStage_counts s product r :
  (forall r, 0 <= map_at 0 (availableResources s) r <= Int.max_int) ->
  resources (handleNextStage product s) = resources s /\
  0 <= map_at 0 (availableResources (handleNextStage product s)) r
    <= map_at 0 (availableResources s) r.
Proof.
  intros Hav.
  destruct (handleNextStage_cases s product)
    as [[_ ->]|[(_ & _ & ->)|(_ & Hpos & ->)]].
  - split; [done|]. cbn. specialize (Hav r). lia.
  - split; [done|]. cbn. rewrite map_at_touch. specialize (Hav r). lia.
  - split; [by destruct (intermediateStage product =? 0)|].
    cbn. rewrite map_at_insert. case_decide as E.
    + subst r. rewrite Int_decr_small.
      * lia.
      * pose proof (Hav (getStageName (intermediateStage product))).
        unfold Int.min_int. lia.
    + destruct (intermediateStage product =? 0); cbn; specialize (Hav r); lia.
Qed.

Lemma counts_within_handleNextStage m s product :
  0 <= m -> counts_within m s -> counts_within m (handleNextStage product s).
Proof.
  intros Hm [Hav Hres].
  assert (forall r, 0 <= map_at 0 (availableResources s) r <= Int.max_int) as Hav'.
  { intros r. specialize (Hav r). lia. }
  split; intros r.
  - destruct (handleNextStage_counts s product r Hav') as [_ Hr].
    specialize (Hav r). lia.
  - destruct (handleNextStage_counts s product r Hav') as [-> _]. apply Hres.
Qed.

(** An increment of one count, with room for it. *)
Lemma counts_within_incr m s k :
  0 <= m -> counts_within (m + 1) s ->
  counts_within m
    (set_availableResources
       (<[k := Int.incr (map_at 0 (availableResources s) k)]> (availableResources s)) s).
Proof.
  intros Hm [Hav Hres]. split; intros r; cbn.
  - rewrite map_at_insert. case_decide as E.
    + specialize (Hav k). rewrite Int_incr_small; unfold Int.min_int in *; lia.
    + specialize (Hav r). lia.
  - specialize (Hres r). lia.
Qed.

Lemma counts_within_completeStage m s product :
  0 <= m -> counts_within (m + 1) s -> counts_within m (completeStage product s).
Proof.
  intros Hm Hs. unfold completeStage. cbv zeta.
  pose proof (counts_within_incr m
                (print (LogCompleted (getStageName (intermediateStage product))
                          (ptype product) (currentTime s)) s)
                (getStageName (intermediateStage product)) Hm
                (counts_within_fields s _ _ eq_refl eq_refl Hs)) as Hs1.
  case_match.
  - apply counts_within_handleNextStage; [done|].
    by eapply counts_within_fields; [| |exact Hs1].
  - by eapply counts_within_fields; [| |exact Hs1].
Qed.

Lemma counts_within_invoke m s a :
  0 <= m -> counts_within (m + 1) s -> counts_within m (invoke a s).
Proof.
  intros Hm Hs. destruct a; cbn [invoke].
  - rewrite handleRawMaterialArrival_eq.
    apply counts_within_handleNextStage; [done|].
    eapply counts_within_fields; [| |apply (counts_within_weaken (m + 1) m s)];
      [done|done|lia|done].
  - eapply counts_within_fields; [| |apply (counts_within_weaken (m + 1) m s)];
      [done|done|lia|done].
  - by apply counts_within_completeStage.
  - unfold handleMaintenance. cbv zeta.
    apply (counts_within_incr m
             (print (LogMaintenance resource (currentTime s)) s) resource Hm).
    by apply (counts_within_fields s).
  - destruct Hs as [Hav Hres]. split; intros r; cbn; specialize (Hres r); lia.
Qed.

Lemma counts_within_loop_body m s :
  0 <= m -> counts_within (m + 1) s -> counts_within m (loop_body s).
Proof.
  intros Hm Hs. unfold loop_body.
  destruct (PQ.top (eventQueue s)) as [e|]; [|by eapply counts_within_weaken; [|exact Hs]; lia].
  apply counts_within_invoke; [done|]. by apply (counts_within_fields s).
Qed.

Lemma counts_within_run_loop k m runTime s :
  0 <= m -> counts_within (m + Z.of_nat k) s ->
  counts_within m (run_loop k runTime s).
Proof.
  revert s m. induction k as [|k IH]; intros s m Hm Hs.
  - cbn. by rewrite Z.add_0_r in Hs.
  - rewrite run_loop_S. destruct (loop_test runTime s).
    + apply IH; [done|]. apply counts_within_loop_body; [lia|].
      replace (m + Z.of_nat k + 1) with (m + Z.of_nat (S k)) by lia. done.
    + eapply counts_within_weaken; [|exact Hs]. lia.
Qed.

(** C3 (as the code has it).  No available count is ever negative: in a
    run of [n] iterations from counts and capacities between 0 and
    [INT_MAX - n], every count is at least 0 after each iteration, whatever
    events fire.  An acquisition attempt keeps every count between 0 and its
    capacity, and a shift change sets every count to its capacity.  (A stage
    completion increments its count without looking at the capacity.) *)
Theorem C3_available_counts :
  (forall s (n k : nat) runTime r,
     counts_within (Z.of_nat n) s -> (k <= n)%nat ->
     0 <= map_at 0 (availableResources (run_loop k runTime s)) r) /\
  (forall s product,
     (forall r, map_at 0 (resources s) r <= Int.max_int) ->
     within_capacity s -> within_capacity (handleNextStage product s)) /\
  (forall s,
     availableResources (handleShiftChange s) = resources s /\
     resources (handleShiftChange s) = resources s).
Proof.
  split; [|split].
  - intros s n k runTime r Hs Hk.
    destruct (counts_within_run_loop k 0 runTime s) as [Hav _]; [lia| |apply Hav].
    eapply counts_within_weaken; [|exact Hs]. lia.
  - intros s product Hmax Hcap r.
    assert (forall r, 0 <= map_at 0 (availableResources s) r <= Int.max_int) as Hav.
    { intros r'. specialize (Hcap r'). specialize (Hmax r'). lia. }
    destruct (handleNextStage_counts s product r Hav) as [-> Hr].
    specialize (Hcap r). lia.
  - intros s. done.
Qed.

End Counts.

Lemma capacities_by_stage_bounds r : 0 <= map_at 0 capacities_by_stage r <= 1.
Proof.
  apply (map_at_Forall (fun v => 0 <= v <= 1)); [lia|].
  unfold capacities_by_stage.
  repeat (apply map_Forall_insert_2; [lia|]). apply map_Forall_empty.
Qed.

Lemma C3_available_counts_witness :
  0 <= map_at 0
         (availableResources
            (run_loop (R := Scripted []) 4 9
               (seedEvents (R := Scripted [])
                  (setResources capacities_by_stage (fresh [7; 100]%Q)))))
         "machining".
Proof.
  apply (proj1 (@C3_available_counts (list Q) (Scripted [])) _ 4%nat 4%nat); [|lia].
  split; intros r; cbn; pose proof (capacities_by_stage_bounds r);
    unfold Int.max_int; lia.
Defined.

(** C3 (as the specification has it) fails.  With one unit of each stage
    resource, a unit arrives at 7 and takes the machining resource; the shift
    change of 8 resets the count to its capacity 1 while the unit is in
    process; the completion at 9.5 raises the count to 2. *)
Lemma C3_available_exceeds_capacity :
  let s := runSimulation (R := Scripted []) 4 9
             (setResources capacities_by_stage (fresh [7; 100]%Q)) in
  finished 9 s /\
  console s = [LogArrival "ProductA" 7; LogShiftChange 8;
               LogCompleted "machining" "ProductA" (19 # 2)] /\
  map_at 0 (resources s) "machining" = 1 /\
  map_at 0 (availableResources s) "machining" = 2 /\
  ~ within_capacity s.
Proof.
  intros s.
  assert (map_at 0 (resources s) "machining" = 1) as Hcap by (vm_compute; reflexivity).
  assert (map_at 0 (availableResources s) "machining" = 2) as Hav
    by (vm_compute; reflexivity).
  split; [vm_compute; reflexivity|]. split; [vm_compute; reflexivity|].
  split; [done|]. split; [done|].
  intros Hwithin. specialize (Hwithin "machining"). lia.
Qed.

(** ** Shift changes *)

Lemma inject_Z_plus_8 z : (inject_Z z + inject_Z 8)%Q = inject_Z (z + 8).
Proof. unfold Qplus, inject_Z. cbn. f_equal. lia. Qed.

Lemma inject_Z_le a b : (inject_Z a <= inject_Z b)%Q <-> a <= b.
Proof. unfold Qle, inject_Z. cbn. lia. Qed.

Lemma shift_multiples_S k :
  shift_multiples (S k) = shift_multiples k ++ [inject_Z (8 * Z.of_nat (S k))].
Proof. unfold shift_multiples. by rewrite seq_S, map_app. Qed.

Lemma shift_change_times_snoc out line :
  shift_change_times (out ++ [line]) =
  shift_change_times out ++
    match line with LogShiftChange t => [t] | _ => [] end.
Proof.
  unfold shift_change_times. rewrite omap_app. f_equal. by destruct line.
Qed.

Section ShiftChanges.

Context {G : Type} `{RandomSource G}.
Implicit Types (s : ManufacturingSystem G) (product : Product).

(** On a stalled line an acquisition attempt schedules nothing. *)
Lemma handleNextStage_stalled s product :
  (forall i, map_at 0 (availableResources s) (getStageName i) <= 0) ->
  let s' := handleNextStage product s in
  eventQueue s' = eventQueue s /\
  (forall i, map_at 0 (availableResources s') (getStageName i) <= 0).
Proof.
  intros Hav.
  destruct (handleNextStage_cases s product)
    as [[_ ->]|[(_ & _ & ->)|(_ & Hpos & _)]].
  - done.
  - split; [done|]. intros i. cbn. rewrite map_at_touch. apply Hav.
  - specialize (Hav (intermediateStage product)). lia.
Qed.

Lemma shift_phase_step g0 N k j s :
  (24 <= arrival_time N g0)%Q ->
  (forall i, (i <= N)%nat -> ~ (arrival_time i g0 == 24)%Q) ->
  shift_phase g0 k j s -> loop_test 24 s = true ->
  ((j < N)%nat /\ shift_phase g0 k (S j) (loop_body s)) \/
  ((k < 3)%nat /\ shift_phase g0 (S k) j (loop_body s)).
Proof.
  intros HN Hnotie (Hsh & Hav & Hres & Hgen & Hq & Hout & Hk3 & Hk24 & H24k & Hpast) Hrun.
  apply loop_test_true in Hrun as [_ Hnow].
  assert (k < 3)%nat as Hk.
  { destruct (decide (k = 3%nat)) as [->|]; [|lia].
    exfalso. specialize (Hk24 eq_refl). by apply (Qlt_not_le _ _ Hnow). }
  assert (j <= N)%nat as HjN.
  { destruct (decide (j <= N)%nat); [done|]. exfalso.
    assert (N < j)%nat as HNj by lia.
    apply (Qlt_not_le _ _ (Hpast N HNj)). done. }
  cbv zeta in Hq. destruct Hq as [[Hq Hle]|Hq].
  - (* the arrival is popped *)
    assert (arrival_time j g0 < 24)%Q as Hlt.
    { apply Qnot_le_lt. intros Hge. apply (Hnotie j HjN).
      apply Qle_antisym; [|done]. eapply Qle_trans; [exact Hle|].
      cbn. change 24%Q with (inject_Z 24). apply inject_Z_le. lia. }
    assert (j < N)%nat as HjltN.
    { destruct (decide (j = N)) as [->|]; [|lia]. exfalso.
      by apply (Qlt_not_le _ _ Hlt). }
    left. split; [done|].
    rewrite (loop_body_top s (arrival_event (arrival_time j g0))) by by rewrite Hq.
    rewrite Hq, pop_pair. cbn [action arrival_event invoke].
    rewrite handleRawMaterialArrival_eq.
    match goal with |- shift_phase _ _ _ (handleNextStage ?p ?s2) =>
      destruct (handleNextStage_stalled s2 p) as [Hq' Hav'];
        [exact Hav|];
      destruct (handleNextStage_frame s2 p) as (Hc & Hg & Hr & Hs & Ho & _)
    end.
    split; [by rewrite Hs|]. split; [exact Hav'|]. split; [by rewrite Hr|].
    split.
    { rewrite Hg. sys_cbn. by rewrite Hgen. }
    split.
    { rewrite Hq'. sys_cbn. rewrite push_singleton. rewrite Hgen.
      change (arrival_time j g0 + fst (sample_interarrival (engine_after (S j) g0)))%Q
        with (arrival_time (S j) g0).
      fold (arrival_event (arrival_time (S j) g0)).
      destruct (Event_gt _ _) eqn:Hgt.
      - left. split; [done|]. apply Event_gt_true in Hgt. by apply Qlt_le_weak.
      - right. done. }
    split.
    { rewrite Ho. sys_cbn. rewrite shift_change_times_snoc. by rewrite app_nil_r. }
    split; [done|].
    rewrite Hc. sys_cbn.
    split; [lia|]. split.
    { intros Hge. exfalso. by apply (Qlt_not_le _ _ Hlt). }
    intros i Hi. destruct (decide (i = j)) as [->|]; [done|]. apply Hpast. lia.
  - (* the shift change is popped *)
    right. split; [done|].
    rewrite (loop_body_top s (shift_event (inject_Z (8 * Z.of_nat (S k)))))
      by by rewrite Hq.
    rewrite Hq, pop_pair. cbn [action shift_event invoke].
    unfold handleShiftChange. cbv zeta.
    split; [done|]. split; [exact Hres|]. split; [exact Hres|].
    split; [exact Hgen|].
    split.
    { sys_cbn. rewrite push_singleton. rewrite Hsh, inject_Z_plus_8.
      assert (8 * Z.of_nat (S k) + 8 = 8 * Z.of_nat (S (S k))) as ->.
      { lia. }
      fold (shift_event (inject_Z (8 * Z.of_nat (S (S k))))).
      destruct (Event_gt _ _) eqn:Hgt.
      - right. done.
      - left. split; [done|]. by apply Event_gt_false in Hgt. }
    split.
    { sys_cbn. rewrite shift_change_times_snoc, Hout. by rewrite shift_multiples_S. }
    split; [lia|]. sys_cbn. split.
    { intros Hk'. change 24%Q with (inject_Z 24). apply inject_Z_le. lia. }
    split.
    { change 24%Q with (inject_Z 24). intros Hge.
      apply (proj1 (inject_Z_le _ _)) in Hge. lia. }
    exact Hpast.
Qed.

Lemma shift_phase_run g0 N s m :
  (24 <= arrival_time N g0)%Q ->
  (forall i, (i <= N)%nat -> ~ (arrival_time i g0 == 24)%Q) ->
  forall k j, shift_phase g0 k j s ->
  exists k' j', shift_phase g0 k' j' (run_loop m 24 s) /\
    ((N - j) + (3 - k) <= m -> finished 24 (run_loop m 24 s))%nat.
Proof.
  intros HN Hnotie. revert s. induction m as [|m IH]; intros s k j Hs.
  - exists k, j. split; [done|]. intros Hm. cbn.
    destruct (loop_test 24 s) eqn:Hrun; [|done]. exfalso.
    destruct (shift_phase_step g0 N k j s HN Hnotie Hs Hrun) as [[Hj _]|[Hk _]]; lia.
  - rewrite run_loop_S. destruct (loop_test 24 s) eqn:Hrun.
    + destruct (shift_phase_step g0 N k j s HN Hnotie Hs Hrun)
        as [[Hj Hs']|[Hk Hs']].
      * destruct (IH _ _ _ Hs') as (k' & j' & Hphase & Hfin).
        exists k', j'. split; [done|]. intros Hm. apply Hfin. lia.
      * destruct (IH _ _ _ Hs') as (k' & j' & Hphase & Hfin).
        exists k', j'. split; [done|]. intros Hm. apply Hfin. lia.
    + exists k, j. done.
Qed.

Lemma shift_phase_finished g0 k j s :
  shift_phase g0 k j s -> finished 24 s ->
  shift_change_times (console s) = [8; 16; 24]%Q.
Proof.
  intros (Hsh & Hav & Hres & Hgen & Hq & Hout & Hk3 & Hk24 & H24k & Hpast) Hfin.
  apply loop_test_false in Hfin as [Hempty|Hnow].
  - cbv zeta in Hq. destruct Hq as [[Hq _]|Hq]; rewrite Hq in Hempty; done.
  - rewrite Hout, (H24k Hnow). reflexivity.
Qed.

Lemma shift_phase_seeded epoch machineCount operatorCount :
  shift_phase (seed_engine (Int.to_unsigned epoch)) 0 0
    (seedEvents
       (setResources
          (<["operators" := operatorCount]> (<["machines" := machineCount]> ∅))
          (ManufacturingSystem_new epoch))).
Proof.
  rewrite seedEvents_eq.
  split; [done|]. split; [|split].
  { intros i. sys_cbn.
    by rewrite (map_at_absent _ _ _ (stage_names_not_configured _ _ i)). }
  { intros i. sys_cbn.
    by rewrite (map_at_absent _ _ _ (stage_names_not_configured _ _ i)). }
  split; [done|]. split.
  { cbv zeta. set (g0 := seed_engine (Int.to_unsigned epoch)).
    set (a := arrival_event (arrival_time 0 g0)).
    set (c := shift_event (inject_Z (8 * Z.of_nat 1))).
    match goal with |- (?q = _ /\ _) \/ _ =>
      assert (q = if Event_gt a c then [c; a] else [a; c]) as Hq end.
    { sys_cbn. change (eventQueue (ManufacturingSystem_new epoch)) with (@nil Event).
      by rewrite push_nil, push_singleton. }
    rewrite Hq. destruct (Event_gt a c) eqn:Hgt.
    - right. done.
    - left. split; [done|]. by apply Event_gt_false in Hgt. }
  split; [done|]. split; [lia|]. split; [lia|]. split.
  - sys_cbn. cbn. intros Hle. exfalso. revert Hle. by vm_compute.
  - intros i Hi. lia.
Qed.


End ShiftChanges.



(** ** A stalled unit leaves no trace in the rest of the run *)

Section StalledUnit.

Context {G : Type} `{RandomSource G}.
Implicit Types (s : ManufacturingSystem G) (product : Product).

(** Both systems as records with the fields they share made the same. *)
Ltac agree_records s1 s2 Hagree :=
  destruct s1 as [q1 res1 av1 us1 wt1 rc1 fp1 ct1 g1 pt1 pty1 fpt1 pq1 ms1 sl1 co1];
  destruct s2 as [q2 res2 av2 us2 wt2 rc2 fp2 ct2 g2 pt2 pty2 fpt2 pq2 ms2 sl2 co2];
  unfold agree_but_waiting in Hagree; cbn in Hagree;
  destruct Hagree as (? & ? & Hav & ? & ? & ? & ? & ? & ? & ? & ? & ? & ? & ?);
  subst.

Ltac agree_solve Hav :=
  unfold agree_but_waiting; sys_cbn;
  repeat match goal with |- _ /\ _ => split end;
  try reflexivity;
  try (intros r; rewrite ?map_at_touch, ?map_at_insert; cbn;
       rewrite ?Hav; reflexivity).

Lemma agree_refl s : agree_but_waiting s s.
Proof. unfold agree_but_waiting. repeat split. Qed.

Lemma agree_handleNextStage s1 s2 product :
  agree_but_waiting s1 s2 ->
  agree_but_waiting (handleNextStage product s1) (handleNextStage product s2).
Proof.
  intros Hagree. agree_records s1 s2 Hagree.
  match goal with |- agree_but_waiting (handleNextStage _ ?a) (handleNextStage _ ?b) =>
    destruct (handleNextStage_cases a product)
      as [[Hr1 ->]|[(Hr1 & Ha1 & ->)|(Hr1 & Ha1 & ->)]];
    destruct (handleNextStage_cases b product)
      as [[Hr2 ->]|[(Hr2 & Ha2 & ->)|(Hr2 & Ha2 & ->)]]
  end; cbn in Hr1, Hr2; try congruence;
    cbn in Ha1 || idtac; cbn in Ha2 || idtac;
    try (rewrite Hav in Ha1; lia).
  - agree_solve Hav.
  - agree_solve Hav.
  - destruct (intermediateStage product =? 0); agree_solve Hav.
Qed.

Lemma agree_completeStage s1 s2 product :
  agree_but_waiting s1 s2 ->
  agree_but_waiting (completeStage product s1) (completeStage product s2).
Proof.
  intros Hagree. unfold completeStage. cbv zeta.
  match goal with
  | |- agree_but_waiting (if ?c1 then handleNextStage ?p ?a else ?f1)
                          (if ?c2 then handleNextStage _ ?b else ?f2) =>
      assert (agree_but_waiting a b) as Hab;
      [|assert (c1 = c2) as Hc;
        [|assert (agree_but_waiting f1 f2) as Hf]]
  end.
  - agree_records s1 s2 Hagree. agree_solve Hav.
  - agree_records s1 s2 Hagree. reflexivity.
  - agree_records s1 s2 Hagree. agree_solve Hav.
  - rewrite Hc. case_match; [by apply agree_handleNextStage|done].
Qed.

Lemma agree_invoke s1 s2 a :
  agree_but_waiting s1 s2 -> agree_but_waiting (invoke a s1) (invoke a s2).
Proof.
  intros Hagree. destruct a; cbn [invoke].
  - rewrite !handleRawMaterialArrival_eq. apply agree_handleNextStage.
    agree_records s1 s2 Hagree. agree_solve Hav.
  - unfold setupDone. agree_records s1 s2 Hagree. agree_solve Hav.
  - by apply agree_completeStage.
  - unfold handleMaintenance. agree_records s1 s2 Hagree. agree_solve Hav.
  - unfold handleShiftChange. agree_records s1 s2 Hagree. agree_solve Hav.
Qed.

Lemma agree_loop_test runTime s1 s2 :
  agree_but_waiting s1 s2 -> loop_test runTime s1 = loop_test runTime s2.
Proof.
  intros (Hq & _ & _ & _ & _ & _ & Hct & _). unfold loop_test. by rewrite Hq, Hct.
Qed.

Lemma agree_loop_body s1 s2 :
  agree_but_waiting s1 s2 -> agree_but_waiting (loop_body s1) (loop_body s2).
Proof.
  intros Hagree. unfold loop_body.
  assert (eventQueue s1 = eventQueue s2) as Hq by apply Hagree.
  rewrite Hq. destruct (PQ.top (eventQueue s2)) as [e|]; [|done].
  apply agree_invoke. agree_records s1 s2 Hagree. cbn in Hq. subst. agree_solve Hav.
Qed.

Lemma agree_run s1 s2 n runTime :
  agree_but_waiting s1 s2 ->
  agree_but_waiting (run_loop n runTime s1) (run_loop n runTime s2) /\
  popped n runTime s1 = popped n runTime s2.
Proof.
  revert s1 s2. induction n as [|n IH]; intros s1 s2 Hagree; [done|].
  rewrite !run_loop_S. cbn [popped].
  rewrite (agree_loop_test runTime s1 s2 Hagree).
  assert (eventQueue s1 = eventQueue s2) as Hq by apply Hagree.
  destruct (loop_test runTime s2); [|done].
  destruct (IH _ _ (agree_loop_body s1 s2 Hagree)) as [Hrun Hpop].
  split; [done|]. rewrite Hq. destruct (PQ.top (eventQueue s2)); [|done].
  by rewrite Hpop.
Qed.

(** C6.  When the check finds nothing available, [handleNextStage] adds the
    processing time of the stage to its waiting-time entry and returns: the
    queue, the available counts, the busy times, the finished counters, the
    clock and the random engine are as before.  Nothing is scheduled for the
    unit then or later: whatever [productQueue] holds, the run that follows
    pops the very events it would pop had the attempt not been made, and the
    two runs agree throughout on everything but the waiting times and
    [productQueue]. *)
Theorem C6_blocked_unit_only_adds_waiting_time s product times :
  processingTimes s !! ptype product = Some times ->
  stage_in_range product times = true ->
  map_at 0 (availableResources s) (getStageName (intermediateStage product)) <= 0 ->
  let stage := getStageName (intermediateStage product) in
  let processTime := nth (Z.to_nat (intermediateStage product)) times 0%Q in
  let s' := handleNextStage product s in
  (map_at 0%Q (resourceWaitingTime s') stage
     = (map_at 0%Q (resourceWaitingTime s) stage + processTime)%Q /\
   (forall r, r <> stage -> resourceWaitingTime s' !! r = resourceWaitingTime s !! r) /\
   eventQueue s' = eventQueue s /\
   (forall r, map_at 0 (availableResources s') r = map_at 0 (availableResources s) r) /\
   resources s' = resources s /\
   resourceUsageTime s' = resourceUsageTime s /\
   finishedProducts s' = finishedProducts s /\
   finishedProductsPerType s' = finishedProductsPerType s /\
   currentTime s' = currentTime s /\
   generator s' = generator s /\
   productQueue s' = productQueue s /\
   console s' = console s) /\
  (forall (units : list Product) (n : nat) (runTime : Q),
     popped n runTime (set_productQueue units s') = popped n runTime s /\
     agree_but_waiting (run_loop n runTime (set_productQueue units s'))
       (run_loop n runTime s)).
Proof.
  intros Ht Hr Hav stage processTime s'. subst s'.
  rewrite (handleNextStage_blocked s product times Ht Hr Hav).
  fold stage processTime. split.
  - cbn. repeat split.
    + apply map_at_insert_eq.
    + intros r Hne. by rewrite lookup_insert_ne.
    + intros r. apply map_at_touch.
  - intros units n runTime.
    match goal with |- popped _ _ ?a = _ /\ _ =>
      assert (agree_but_waiting a s) as Hagree end.
    { unfold agree_but_waiting. sys_cbn. repeat split.
      intros r. apply map_at_touch. }
    destruct (agree_run _ _ n runTime Hagree) as [Hrun Hpop]. by split.
Qed.

End StalledUnit.

Lemma C6_blocked_unit_only_adds_waiting_time_witness :
  let s := seedEvents (R := Scripted []) (fresh []) in
  eventQueue (handleNextStage (productA 0) s) = eventQueue s /\
  popped (R := Scripted []) 30 24 (set_productQueue [] (handleNextStage (productA 0) s))
    = popped (R := Scripted []) 30 24 s.
Proof.
  intros s.
  pose proof (@C6_blocked_unit_only_adds_waiting_time (list Q) (Scripted [])
                s (productA 0) [2; 3 # 2; 1; 1]%Q eq_refl eq_refl) as Hc.
  assert (map_at 0 (availableResources s) (getStageName 0) <= 0) as Hav
    by (vm_compute; discriminate).
  destruct (Hc Hav) as [(_ & _ & Hq & _) Hrest].
  split; [exact Hq|]. exact (proj1 (Hrest [] 30%nat 24%Q)).
Defined.

(** * Further properties *)

(** ** The queue conserves its events *)

(** X1.  [push] and [pop] keep the heap shape and neither lose nor
    duplicate an event: after a push the queue holds what it held and the new
    event; a pop removes the front event, which is one of least time, and
    nothing else. *)
Theorem X1_queue_conserves_events (c : list Event) (x : Event) :
  PQ.is_heap c ->
  (PQ.is_heap (PQ.push x c) /\ PQ.push x c ≡ₚ x :: c) /\
  (forall e, PQ.top c = Some e ->
     PQ.is_heap (PQ.pop c) /\ e :: PQ.pop c ≡ₚ c /\
     forall y, y ∈ c -> (time e <= time y)%Q).
Proof.
  intros Hc. split.
  - split; [by apply push_heap|apply push_perm].
  - intros e He. split; [by apply pop_heap|]. split; [by apply pop_perm|].
    by apply is_heap_top_min.
Qed.

Lemma X1_queue_conserves_events_witness :
  PQ.push (shift_event 8) [arrival_event 10] ≡ₚ [shift_event 8; arrival_event 10].
Proof.
  apply (proj1 (X1_queue_conserves_events [arrival_event 10] (shift_event 8)
                  (is_heap_singleton _))).
Defined.

(** Popping until the queue is empty. *)

Lemma drain_nil n : PQ.drain n [] = [].
Proof. by destruct n. Qed.

Lemma drain_cons n front rest :
  PQ.drain (S n) (front :: rest) = front :: PQ.drain n (PQ.pop (front :: rest)).
Proof. reflexivity. Qed.

Lemma drain_heap n c t :
  PQ.is_heap c -> length c = n -> (forall y, y ∈ c -> (t <= time y)%Q) ->
  PQ.drain n c ≡ₚ c /\ nondecreasing_from t (PQ.drain n c).
Proof.
  revert c t. induction n as [|n IH]; intros c t Hc Hlen Hlow.
  - destruct c; [done|discriminate].
  - destruct c as [|front rest]; [discriminate|].
    rewrite drain_cons.
    destruct (pop_spec front rest Hc) as [Hheap Hperm].
    destruct (IH (PQ.pop (front :: rest)) (time front)) as [Hp Hs].
    + done.
    + rewrite Hperm. simpl in Hlen. lia.
    + intros y Hy. apply (is_heap_top_min (front :: rest) front Hc eq_refl).
      rewrite Hperm in Hy. by right.
    + split.
      * by rewrite Hp, Hperm.
      * split; [|done]. apply Hlow. by left.
Qed.



(** ** What a handler does to the queue *)

Lemma push_all_cons e es c : push_all (e :: es) c = push_all es (PQ.push e c).
Proof. reflexivity. Qed.

Lemma push_all_heap es c : PQ.is_heap c -> PQ.is_heap (push_all es c).
Proof.
  revert c. induction es as [|e es IH]; intros c Hc; [done|].
  rewrite push_all_cons. apply IH. by apply push_heap.
Qed.

Lemma push_all_perm es c : push_all es c ≡ₚ es ++ c.
Proof.
  revert c. induction es as [|e es IH]; intros c; [done|].
  rewrite push_all_cons, IH, push_perm. symmetry. apply Permutation_middle.
Qed.

Section QueueEffects.

Context {G : Type} `{RandomSource G}.
Implicit Types (s : ManufacturingSystem G) (product : Product).

Lemma handleNextStage_pushes s product :
  exists es, eventQueue (handleNextStage product s) = push_all es (eventQueue s) /\
    (length es <= 1)%nat /\
    (forall e, e ∈ es -> exists processTime,
       action e = ActSetup product processTime (getStageName (intermediateStage product))).
Proof.
  destruct (handleNextStage_cases s product)
    as [[_ ->]|[(_ & _ & ->)|(_ & _ & ->)]].
  - exists []. split; [done|]. split; [cbn; lia|]. intros e He. by apply elem_of_nil in He.
  - exists []. split; [done|]. split; [cbn; lia|]. intros e He. by apply elem_of_nil in He.
  - destruct (intermediateStage product =? 0);
      (eexists [_]; split; [reflexivity|]; split; [cbn; lia|];
       intros e He; apply list_elem_of_singleton in He as ->; cbn; eauto).
Qed.

Lemma completeStage_pushes s product :
  exists es, eventQueue (completeStage product s) = push_all es (eventQueue s) /\
    (length es <= 1)%nat /\
    (forall e, e ∈ es -> action e <> ActShiftChange).
Proof.
  unfold completeStage. cbv zeta. case_match.
  - match goal with |- context [handleNextStage ?p ?s1] =>
      destruct (handleNextStage_pushes s1 p) as (es & Hq & Hlen & Hact) end.
    exists es. split; [exact Hq|]. split; [done|].
    intros e He. destruct (Hact e He) as [pt ->]. done.
  - exists []. split; [done|]. split; [cbn; lia|]. intros e He. by apply elem_of_nil in He.
Qed.

(** The events an action schedules: at most two, and a shift change
    schedules a shift change. *)
Lemma invoke_pushes s a :
  exists es, eventQueue (invoke a s) = push_all es (eventQueue s) /\
    (length es <= 2)%nat /\
    (a = ActShiftChange -> exists e, e ∈ es /\ action e = ActShiftChange).
Proof.
  destruct a; cbn [invoke].
  - rewrite handleRawMaterialArrival_eq.
    match goal with |- context [handleNextStage ?p ?s1] =>
      destruct (handleNextStage_pushes s1 p) as (es & Hq & Hlen & _) end.
    eexists (_ :: es). split; [rewrite Hq; reflexivity|]. split; [cbn; lia|done].
  - eexists [_]. split; [reflexivity|]. split; [cbn; lia|done].
  - destruct (completeStage_pushes s product) as (es & Hq & Hlen & _).
    exists es. split; [done|]. split; [lia|done].
  - exists []. split; [done|]. split; [cbn; lia|done].
  - eexists [_]. split; [reflexivity|]. split; [cbn; lia|].
    intros _. eexists. split; [apply list_elem_of_singleton; reflexivity|done].
Qed.

Lemma loop_body_queue s e :
  PQ.is_heap (eventQueue s) -> PQ.top (eventQueue s) = Some e ->
  exists added,
    (length added <= 2)%nat /\
    eventQueue (loop_body s) ≡ₚ added ++ PQ.pop (eventQueue s) /\
    PQ.is_heap (eventQueue (loop_body s)) /\
    (action e = ActShiftChange -> exists x, x ∈ added /\ action x = ActShiftChange).
Proof.
  intros Hheap He. rewrite (loop_body_top s e He).
  match goal with |- context [invoke ?a ?s1] =>
    destruct (invoke_pushes s1 a) as (es & Hq & Hlen & Hshift) end.
  exists es. split; [done|]. rewrite Hq. sys_cbn. split; [|split; [|done]].
  - apply push_all_perm.
  - apply push_all_heap. by apply pop_heap.
Qed.

Lemma loop_body_heap s : PQ.is_heap (eventQueue s) -> PQ.is_heap (eventQueue (loop_body s)).
Proof.
  intros Hheap. destruct (PQ.top (eventQueue s)) as [e|] eqn:He.
  - by destruct (loop_body_queue s e Hheap He) as (_ & _ & _ & ? & _).
  - unfold loop_body. by rewrite He.
Qed.

Lemma run_loop_heap n runTime s :
  PQ.is_heap (eventQueue s) -> PQ.is_heap (eventQueue (run_loop n runTime s)).
Proof.
  revert s. induction n as [|n IH]; intros s Hheap; [done|].
  rewrite run_loop_S. destruct (loop_test runTime s); [|done].
  by apply IH, loop_body_heap.
Qed.


(** ** The queue of a run is never empty *)

Lemma shift_pending_loop_body s :
  PQ.is_heap (eventQueue s) -> shift_pending s -> shift_pending (loop_body s).
Proof.
  intros Hheap (x & Hx & Hax).
  destruct (PQ.top (eventQueue s)) as [e|] eqn:He.
  - destruct (loop_body_queue s e Hheap He) as (added & _ & Hq & _ & Hshift).
    assert (action e = ActShiftChange \/ action e <> ActShiftChange) as [Hae|Hae]
      by (destruct (action e); auto).
    + destruct (Hshift Hae) as (y & Hy & Hay). exists y. split; [|done].
      rewrite Hq. apply elem_of_app. by left.
    + exists x. split; [|done]. rewrite Hq. apply elem_of_app. right.
      rewrite <- (pop_perm _ _ Hheap He) in Hx.
      apply elem_of_cons in Hx as [->|Hx]; [congruence|done].
  - unfold loop_body. rewrite He. by exists x.
Qed.

Lemma shift_pending_run_loop n runTime s :
  PQ.is_heap (eventQueue s) -> shift_pending s ->
  shift_pending (run_loop n runTime s).
Proof.
  revert s. induction n as [|n IH]; intros s Hheap Hs; [done|].
  rewrite run_loop_S. destruct (loop_test runTime s); [|done].
  apply IH; [by apply loop_body_heap|by apply shift_pending_loop_body].
Qed.

(** X4.  The shift change reschedules itself each time it fires, so the
    queue of a run is never empty: the loop of [runSimulation] ends through
    its time bound only, with the clock at the bound or past it. *)
Theorem X4_run_ends_by_the_bound_only s (n : nat) (runTime : Q) :
  PQ.is_heap (eventQueue s) ->
  eventQueue (runSimulation n runTime s) <> [] /\
  (finished runTime (runSimulation n runTime s) ->
   (runTime <= currentTime (runSimulation n runTime s))%Q).
Proof.
  intros Hheap. unfold runSimulation.
  assert (PQ.is_heap (eventQueue (seedEvents s)) /\ shift_pending (seedEvents s))
    as [Hh Hp].
  { rewrite seedEvents_eq. split.
    - sys_cbn. by do 2 apply push_heap.
    - eexists. split; [sys_cbn; apply elem_of_push; left; reflexivity|done]. }
  destruct (shift_pending_run_loop n runTime _ Hh Hp) as (x & Hx & _).
  assert (eventQueue (run_loop n runTime (seedEvents s)) <> []) as Hne.
  { intros E. rewrite E in Hx. by apply elem_of_nil in Hx. }
  split; [done|]. intros Hfin. apply loop_test_false in Hfin as [E|Hb]; done.
Qed.

(** ** The clock never goes back *)

Lemma sched_inv_run_loop n runTime s :
  nonneg_samples G -> sched_inv s ->
  sched_inv (run_loop n runTime s) /\
  (currentTime s <= currentTime (run_loop n runTime s))%Q.
Proof.
  intros Hsamples. revert s. induction n as [|n IH]; intros s Hs.
  - split; [done|apply Qle_refl].
  - rewrite run_loop_S. destruct (loop_test runTime s) eqn:Hrun;
      [|split; [done|apply Qle_refl]].
    apply loop_test_true in Hrun as [Hne _].
    destruct (eventQueue s) as [|e q] eqn:Hq; [done|].
    assert (PQ.top (eventQueue s) = Some e) as He by by rewrite Hq.
    destruct (sched_inv_loop_body s e Hsamples Hs He) as [Hs' Hle].
    destruct (IH _ Hs') as [Hs'' Hle']. split; [done|].
    eapply Qle_trans; [exact Hle|]. by rewrite <- (currentTime_loop_body s e He).
Qed.

(** X5.  With samples that are not negative, a run never moves the clock
    back and never leaves an event in the past: after any number of
    iterations the clock is where it was or later, the queue is a heap and
    every pending event has the time of the clock or a later one. *)
Theorem X5_clock_never_goes_back s (n : nat) (runTime : Q) :
  nonneg_samples G -> sched_inv s ->
  (currentTime s <= currentTime (run_loop n runTime s))%Q /\
  PQ.is_heap (eventQueue (run_loop n runTime s)) /\
  (forall e, e ∈ eventQueue (run_loop n runTime s) ->
     (currentTime (run_loop n runTime s) <= time e)%Q).
Proof.
  intros Hsamples Hs.
  destruct (sched_inv_run_loop n runTime s Hsamples Hs) as [(Hh & Hq & _) Hle].
  split; [done|]. split; [done|]. intros e He. by apply Hq.
Qed.

End QueueEffects.


Lemma X4_run_ends_by_the_bound_only_witness :
  eventQueue (runSimulation (R := Scripted []) 40 24 (fresh [])) <> [].
Proof.
  exact (proj1 (@X4_run_ends_by_the_bound_only (list Q) (Scripted []) (fresh [])
                  40%nat 24%Q is_heap_nil)).
Defined.

Lemma X5_clock_never_goes_back_witness :
  (currentTime
     (seedEvents (R := Lcg)
        (setResources capacities_by_stage (ManufacturingSystem_new (R := Lcg) 5)))
   <= currentTime
        (run_loop (R := Lcg) 50 24
           (seedEvents (R := Lcg)
              (setResources capacities_by_stage
                 (ManufacturingSystem_new (R := Lcg) 5)))))%Q.
Proof.
  refine (proj1 (@X5_clock_never_goes_back Z Lcg
                   (seedEvents (R := Lcg)
                      (setResources capacities_by_stage
                         (ManufacturingSystem_new (R := Lcg) 5)))
                   50%nat 24%Q Lcg_nonneg_samples _)).
  apply sched_inv_seedEvents; [apply Lcg_nonneg_samples|apply sched_inv_new|].
  apply Qle_refl.
Defined.

(** ** Stage names *)

(** X6.  The four stages of a plan have four different resource names, none
    of them "unknown"; every other index, negative or past 3, gives
    "unknown". *)
Theorem X6_stage_names (i j : Z) :
  (0 <= i <= 3 -> 0 <= j <= 3 -> getStageName i = getStageName j -> i = j) /\
  (0 <= i <= 3 -> getStageName i <> "unknown") /\
  (i < 0 \/ 3 < i -> getStageName i = "unknown").
Proof.
  split; [|split].
  - intros Hi Hj.
    assert (i = 0 \/ i = 1 \/ i = 2 \/ i = 3) as [-> | [-> | [-> | ->]]] by lia;
    assert (j = 0 \/ j = 1 \/ j = 2 \/ j = 3) as [-> | [-> | [-> | ->]]] by lia;
      cbn; intros E; done.
  - intros Hi.
    assert (i = 0 \/ i = 1 \/ i = 2 \/ i = 3) as [-> | [-> | [-> | ->]]] by lia;
      done.
  - intros Hi. destruct i as [|[[| |]|[| |]|]|]; cbn; try done; lia.
Qed.

Lemma X6_stage_names_witness : getStageName 4 = "unknown".
Proof. apply (proj2 (proj2 (X6_stage_names 4 0))). right. lia. Defined.

(** ** Units that cannot be processed *)

Lemma stage_in_range_false product times :
  Int.min_int <= intermediateStage product <= Int.max_int ->
  Z.of_nat (length times) <= Int.max_int ->
  intermediateStage product < 0 \/
    Z.of_nat (length times) <= intermediateStage product ->
  stage_in_range product times = false.
Proof.
  unfold stage_in_range, Int.to_size_t, Int.min_int, Int.max_int.
  intros Hint Hlen Hout. apply Z.ltb_ge.
  destruct (Z_lt_le_dec (intermediateStage product) 0) as [Hneg|Hpos].
  - replace (intermediateStage product)
      with (intermediateStage product + 18446744073709551616
            + (-1) * 18446744073709551616) by lia.
    rewrite Z.mod_add by lia. rewrite Z.mod_small by lia. lia.
  - rewrite Z.mod_small by lia. lia.
Qed.

Section Dropped.

Context {G : Type} `{RandomSource G}.
Implicit Types (s : ManufacturingSystem G) (product : Product).

(** X7.  A unit whose product type has no process plan, or whose stage
    index is negative or past the end of the plan, is dropped without a
    trace: [handleNextStage] schedules nothing, records no waiting or busy
    time, takes no resource.  For an unknown type the lookup leaves an empty
    plan for it in [processingTimes]; otherwise the state is unchanged. *)
Theorem X7_unprocessable_unit_is_dropped s product :
  (processingTimes s !! ptype product = None ->
   handleNextStage product s =
     set_processingTimes (<[ptype product := []]> (processingTimes s)) s) /\
  (forall times,
     processingTimes s !! ptype product = Some times ->
     Int.min_int <= intermediateStage product <= Int.max_int ->
     Z.of_nat (length times) <= Int.max_int ->
     intermediateStage product < 0 \/
       Z.of_nat (length times) <= intermediateStage product ->
     handleNextStage product s = s).
Proof.
  split.
  - intros Hnone.
    destruct (handleNextStage_cases s product)
      as [[_ ->]|[(Hr & _)|(Hr & _)]].
    + by rewrite (map_touch_absent _ _ _ Hnone).
    + rewrite (map_at_absent _ _ _ Hnone) in Hr. unfold stage_in_range in Hr.
      cbn in Hr. apply Z.ltb_lt in Hr. unfold Int.to_size_t in Hr.
      pose proof (Z.mod_pos_bound (intermediateStage product) 18446744073709551616).
      lia.
    + rewrite (map_at_absent _ _ _ Hnone) in Hr. unfold stage_in_range in Hr.
      cbn in Hr. apply Z.ltb_lt in Hr. unfold Int.to_size_t in Hr.
      pose proof (Z.mod_pos_bound (intermediateStage product) 18446744073709551616).
      lia.
  - intros times Ht Hint Hlen Hout.
    apply (handleNextStage_out_of_range s product times Ht).
    by apply stage_in_range_false.
Qed.

End Dropped.

Lemma X7_unprocessable_unit_is_dropped_witness :
  handleNextStage (productA 4) (fresh []) = fresh [].
Proof.
  apply (proj2 (@X7_unprocessable_unit_is_dropped (list Q) (fresh []) (productA 4))
           [2; 3 # 2; 1; 1]%Q); [reflexivity|done|done|right; cbn; lia].
Defined.

(** ** Breakdown and maintenance *)

Section Breakdown.

Context {G : Type} `{RandomSource G}.
Implicit Types (s : ManufacturingSystem G).

(** X8.  A breakdown takes no unit of the resource away: it only schedules
    a maintenance event 5 time units later.  When that event fires the count
    of the resource goes up by one and no other count changes, so a
    breakdown with its maintenance leaves one unit more than before. *)
Theorem X8_breakdown_then_maintenance s s' (resource : string) :
  Int.min_int <= map_at 0 (availableResources s) resource < Int.max_int ->
  availableResources (handleBreakdown resource s) = availableResources s /\
  eventQueue (handleBreakdown resource s) =
    PQ.push {| time := (currentTime s + 5)%Q; type := "maintenance";
               action := ActMaintenance resource |} (eventQueue s) /\
  (availableResources s' = availableResources s ->
   map_at 0 (availableResources (invoke (ActMaintenance resource) s')) resource
     = map_at 0 (availableResources s) resource + 1 /\
   forall r, r <> resource ->
     map_at 0 (availableResources (invoke (ActMaintenance resource) s')) r
       = map_at 0 (availableResources s) r).
Proof.
  intros Hrange. split; [done|]. split; [done|]. intros Hsame.
  cbn [invoke]. unfold handleMaintenance. sys_cbn. rewrite Hsame. split.
  - rewrite map_at_insert_eq. by apply Int_incr_small.
  - intros r Hne. by rewrite map_at_insert_ne.
Qed.

End Breakdown.

Lemma X8_breakdown_then_maintenance_witness :
  map_at 0 (availableResources
              (invoke (R := Scripted []) (ActMaintenance "machines")
                 (handleBreakdown "machines" (fresh []))))
    "machines" = 10 + 1.
Proof.
  refine (proj1 (proj2 (proj2
            (@X8_breakdown_then_maintenance (list Q) (Scripted []) (fresh [])
               (handleBreakdown "machines" (fresh [])) "machines" _)) eq_refl)).
  split; vm_compute; [discriminate|reflexivity].
Defined.

(** ** The accumulators only grow *)

Lemma accumulators_le_refl m : accumulators_le m m.
Proof. intros r. apply Qle_refl. Qed.

Lemma accumulators_le_trans m1 m2 m3 :
  accumulators_le m1 m2 -> accumulators_le m2 m3 -> accumulators_le m1 m3.
Proof. intros H12 H23 r. eapply Qle_trans; [apply H12|apply H23]. Qed.

Lemma accumulators_le_add (m : gmap string Q) k (d : Q) :
  (0 <= d)%Q -> accumulators_le m (<[k := (map_at 0%Q m k + d)%Q]> m).
Proof.
  intros Hd r. rewrite map_at_insert. case_decide as E.
  - subst. by apply Qle_plus_nonneg.
  - apply Qle_refl.
Qed.

Section Accumulators.

Context {G : Type} `{RandomSource G}.
Implicit Types (s : ManufacturingSystem G) (product : Product).

Lemma handleNextStage_accumulators s product :
  (forall ty times t, processingTimes s !! ty = Some times -> t ∈ times -> (0 <= t)%Q) ->
  (forall ty d, machineSetupTimes s !! ty = Some d -> (0 <= d)%Q) ->
  accumulators_le (resourceUsageTime s) (resourceUsageTime (handleNextStage product s)) /\
  accumulators_le (resourceWaitingTime s)
    (resourceWaitingTime (handleNextStage product s)).
Proof.
  intros Hpt Hst.
  destruct (handleNextStage_cases s product)
    as [[_ ->]|[(_ & _ & ->)|(_ & _ & ->)]].
  - split; apply accumulators_le_refl.
  - split; [apply accumulators_le_refl|]. sys_cbn.
    apply accumulators_le_add, nth_nonneg. by apply map_at_times_ok.
  - split.
    + sys_cbn. apply accumulators_le_add.
      destruct (intermediateStage product =? 0); [|apply Qle_refl].
      by apply map_at_setup_ok.
    + destruct (intermediateStage product =? 0); apply accumulators_le_refl.
Qed.

Lemma invoke_accumulators s a :
  sched_inv s -> setup_time_ok a ->
  accumulators_le (resourceUsageTime s) (resourceUsageTime (invoke a s)) /\
  accumulators_le (resourceWaitingTime s) (resourceWaitingTime (invoke a s)).
Proof.
  intros (Hheap & Hq & Hpt & Hst & Hsh) Ha. destruct a; cbn [invoke].
  - rewrite handleRawMaterialArrival_eq.
    match goal with |- context [handleNextStage ?p ?s1] =>
      apply (handleNextStage_accumulators s1 p) end; done.
  - split; [|apply accumulators_le_refl]. unfold setupDone. sys_cbn.
    by apply accumulators_le_add.
  - unfold completeStage. cbv zeta. case_match.
    + match goal with |- context [handleNextStage ?p ?s1] =>
        apply (handleNextStage_accumulators s1 p) end; [|done].
      by apply times_ok_touch.
    + split; apply accumulators_le_refl.
  - split; apply accumulators_le_refl.
  - split; apply accumulators_le_refl.
Qed.

Lemma run_loop_accumulators n runTime s :
  nonneg_samples G -> sched_inv s ->
  accumulators_le (resourceUsageTime s) (resourceUsageTime (run_loop n runTime s)) /\
  accumulators_le (resourceWaitingTime s) (resourceWaitingTime (run_loop n runTime s)).
Proof.
  intros Hsamples. revert s. induction n as [|n IH]; intros s Hs.
  - split; apply accumulators_le_refl.
  - rewrite run_loop_S. destruct (loop_test runTime s) eqn:Hrun;
      [|split; apply accumulators_le_refl].
    apply loop_test_true in Hrun as [Hne _].
    destruct (eventQueue s) as [|e q] eqn:Hq; [done|].
    assert (PQ.top (eventQueue s) = Some e) as He by by rewrite Hq.
    destruct (sched_inv_loop_body s e Hsamples Hs He) as [Hs' _].
    destruct (IH _ Hs') as [Hu Hw].
    assert (accumulators_le (resourceUsageTime s) (resourceUsageTime (loop_body s)) /\
            accumulators_le (resourceWaitingTime s) (resourceWaitingTime (loop_body s)))
      as [Hu1 Hw1].
    { rewrite (loop_body_top s e He).
      pose proof Hs as (Hheap & Hqs & Hpt & Hst & Hsh).
      match goal with |- context [invoke ?a ?s1] =>
        apply (invoke_accumulators s1 a) end.
      - split; [by apply pop_heap|]. split; [|done].
        intros e' He'. change (e' ∈ PQ.pop (eventQueue s)) in He'.
        apply elem_of_pop in He'; [|done]. split.
        + by apply (is_heap_top_min _ _ Hheap He).
        + by apply Hqs.
      - apply Hqs. rewrite Hq. by left. }
    split; eapply accumulators_le_trans; eauto.
Qed.

(** X9.  The statistics only grow: with samples that are not negative, in a
    run from a state whose durations are not negative, the busy time and the
    waiting time of every resource name are, after any number of
    iterations, what they were or more. *)
Theorem X9_busy_and_waiting_times_only_grow s (n : nat) (runTime : Q) (r : string) :
  nonneg_samples G -> sched_inv s ->
  (map_at 0 (resourceUsageTime s) r
     <= map_at 0 (resourceUsageTime (run_loop n runTime s)) r)%Q /\
  (map_at 0 (resourceWaitingTime s) r
     <= map_at 0 (resourceWaitingTime (run_loop n runTime s)) r)%Q.
Proof.
  intros Hsamples Hs.
  destruct (run_loop_accumulators n runTime s Hsamples Hs) as [Hu Hw].
  split; [apply Hu|apply Hw].
Qed.

End Accumulators.

Lemma X9_busy_and_waiting_times_only_grow_witness :
  (map_at 0
     (resourceUsageTime
        (seedEvents (R := Lcg)
           (setResources capacities_by_stage (ManufacturingSystem_new (R := Lcg) 5))))
     "machining"
   <= map_at 0
        (resourceUsageTime
           (run_loop (R := Lcg) 50 24
              (seedEvents (R := Lcg)
                 (setResources capacities_by_stage
                    (ManufacturingSystem_new (R := Lcg) 5)))))
        "machining")%Q.
Proof.
  refine (proj1 (@X9_busy_and_waiting_times_only_grow Z Lcg
                   (seedEvents (R := Lcg)
                      (setResources capacities_by_stage
                         (ManufacturingSystem_new (R := Lcg) 5)))
                   50%nat 24%Q "machining" Lcg_nonneg_samples _)).
  apply sched_inv_seedEvents; [apply Lcg_nonneg_samples|apply sched_inv_new|].
  apply Qle_refl.
Defined.

(** ** The finished counters add up *)

Lemma sum_counts_empty : sum_counts ∅ = 0.
Proof. apply map_fold_empty. Qed.

Lemma sum_counts_insert_fresh (m : gmap string Z) k v :
  m !! k = None -> sum_counts (<[k := v]> m) = v + sum_counts m.
Proof.
  intros Hk. unfold sum_counts.
  rewrite (map_fold_insert_L (fun _ v acc => v + acc) 0 k v m); [done| |done].
  intros. cbv beta. lia.
Qed.

Lemma sum_counts_delete (m : gmap string Z) k x :
  m !! k = Some x -> sum_counts m = x + sum_counts (delete k m).
Proof.
  intros Hk. unfold sum_counts.
  rewrite (map_fold_delete_L (fun _ v acc => v + acc) 0 k x m); [done| |done].
  intros. cbv beta. lia.
Qed.

Lemma sum_counts_insert (m : gmap string Z) k v :
  sum_counts (<[k := v]> m) = sum_counts m - map_at 0 m k + v.
Proof.
  unfold map_at. destruct (m !! k) as [x|] eqn:Hk; cbn.
  - rewrite <- insert_delete_eq.
    rewrite sum_counts_insert_fresh by apply lookup_delete_eq.
    rewrite (sum_counts_delete m k x Hk). lia.
  - rewrite sum_counts_insert_fresh by done. lia.
Qed.

Lemma sum_counts_nonneg (m : gmap string Z) :
  map_Forall (fun _ v => 0 <= v) m -> 0 <= sum_counts m.
Proof.
  induction m as [|k v m Hk IH] using map_ind; intros Hall.
  - by rewrite sum_counts_empty.
  - rewrite sum_counts_insert_fresh by done.
    apply map_Forall_insert in Hall as [Hv Hm]; [|done].
    specialize (IH Hm). lia.
Qed.

Lemma sum_counts_entry_le (m : gmap string Z) k :
  map_Forall (fun _ v => 0 <= v) m -> 0 <= map_at 0 m k <= sum_counts m.
Proof.
  intros Hall. unfold map_at. destruct (m !! k) as [x|] eqn:Hk; cbn.
  - rewrite (sum_counts_delete m k x Hk).
    assert (0 <= sum_counts (delete k m)).
    { apply sum_counts_nonneg. by apply map_Forall_delete. }
    pose proof (Hall k x Hk). cbn in *. lia.
  - pose proof (sum_counts_nonneg m Hall). lia.
Qed.

Section Counters.

Context {G : Type} `{RandomSource G}.
Implicit Types (s : ManufacturingSystem G) (product : Product).

Lemma counters_consistent_fields m s s' :
  finishedProducts s' = finishedProducts s ->
  finishedProductsPerType s' = finishedProductsPerType s ->
  counters_consistent m s -> counters_consistent m s'.
Proof. unfold counters_consistent. by intros -> ->. Qed.

Lemma counters_consistent_weaken m m' s :
  m' <= m -> counters_consistent m s -> counters_consistent m' s.
Proof. intros Hle (H1 & H2 & H3). repeat split; [done..|lia]. Qed.

Lemma counters_consistent_completeStage m s product :
  0 <= m -> counters_consistent (m + 1) s -> counters_consistent m (completeStage product s).
Proof.
  intros Hm (Hsum & Hall & Hroom). unfold completeStage. cbv zeta. case_match.
  - match goal with |- context [handleNextStage ?p ?s1] =>
      destruct (handleNextStage_frame s1 p) as (_ & _ & _ & _ & _ & Hfp & Hfpt & _)
    end.
    apply (counters_consistent_fields m s); [by rewrite Hfp|by rewrite Hfpt|].
    repeat split; [done..|lia].
  - pose proof (sum_counts_entry_le (finishedProductsPerType s) (ptype product) Hall)
      as Hentry.
    pose proof (sum_counts_nonneg _ Hall) as Hpos.
    unfold counters_consistent. sys_cbn. cbn [ptype intermediateStage].
    rewrite !Int_incr_small by (unfold Int.min_int; lia).
    split; [|split].
    + rewrite sum_counts_insert. lia.
    + apply map_Forall_insert_2; [lia|done].
    + lia.
Qed.

Lemma counters_consistent_invoke m s a :
  0 <= m -> counters_consistent (m + 1) s -> counters_consistent m (invoke a s).
Proof.
  intros Hm Hs. destruct a; cbn [invoke].
  - rewrite handleRawMaterialArrival_eq.
    match goal with |- context [handleNextStage ?p ?s1] =>
      destruct (handleNextStage_frame s1 p) as (_ & _ & _ & _ & _ & Hfp & Hfpt & _)
    end.
    apply (counters_consistent_fields m s); [by rewrite Hfp|by rewrite Hfpt|].
    eapply counters_consistent_weaken; [|exact Hs]. lia.
  - apply (counters_consistent_fields m s); [done..|].
    eapply counters_consistent_weaken; [|exact Hs]. lia.
  - by apply counters_consistent_completeStage.
  - apply (counters_consistent_fields m s); [done..|].
    eapply counters_consistent_weaken; [|exact Hs]. lia.
  - apply (counters_consistent_fields m s); [done..|].
    eapply counters_consistent_weaken; [|exact Hs]. lia.
Qed.

Lemma counters_consistent_loop_body m s :
  0 <= m -> counters_consistent (m + 1) s -> counters_consistent m (loop_body s).
Proof.
  intros Hm Hs. unfold loop_body.
  destruct (PQ.top (eventQueue s)) as [e|];
    [|eapply counters_consistent_weaken; [|exact Hs]; lia].
  apply counters_consistent_invoke; [done|].
  by apply (counters_consistent_fields (m + 1) s).
Qed.

Lemma counters_consistent_run_loop k m runTime s :
  0 <= m -> counters_consistent (m + Z.of_nat k) s ->
  counters_consistent m (run_loop k runTime s).
Proof.
  revert s m. induction k as [|k IH]; intros s m Hm Hs.
  - cbn. by rewrite Z.add_0_r in Hs.
  - rewrite run_loop_S. destruct (loop_test runTime s).
    + apply IH; [done|]. apply counters_consistent_loop_body; [lia|].
      replace (m + Z.of_nat k + 1) with (m + Z.of_nat (S k)) by lia. done.
    + eapply counters_consistent_weaken; [|exact Hs]. lia.
Qed.

(** X10.  The finished counters add up: if the global count is the sum of
    the counts by type (none negative) and is at most [INT_MAX - n], then
    after each of the first [n] iterations of a run the global count is still
    the sum of the counts by type. *)
Theorem X10_finished_counters_add_up s (n k : nat) (runTime : Q) :
  counters_consistent (Z.of_nat n) s -> (k <= n)%nat ->
  finishedProducts (run_loop k runTime s)
    = sum_counts (finishedProductsPerType (run_loop k runTime s)).
Proof.
  intros Hs Hk.
  destruct (counters_consistent_run_loop k 0 runTime s) as [Hsum _]; [lia| |done].
  eapply counters_consistent_weaken; [|exact Hs]. lia.
Qed.

(** ** Arrivals are counted *)

Lemma arrivals_counted_fields m s s' :
  rawMaterialCount s' = rawMaterialCount s -> productQueue s' = productQueue s ->
  arrivals_counted m s -> arrivals_counted m s'.
Proof. unfold arrivals_counted. by intros -> ->. Qed.

Lemma arrivals_counted_weaken m m' s :
  m' <= m -> arrivals_counted m s -> arrivals_counted m' s.
Proof. intros Hle (H1 & H2). split; [done|lia]. Qed.

Lemma arrivals_counted_invoke m s a :
  0 <= m -> arrivals_counted (m + 1) s ->
  arrivals_counted m (invoke a s) /\
  exists units, productQueue (invoke a s) = productQueue s ++ units.
Proof.
  intros Hm Hs. destruct a; cbn [invoke].
  - rewrite handleRawMaterialArrival_eq.
    match goal with |- context [handleNextStage ?p ?s1] =>
      destruct (handleNextStage_frame s1 p) as (_ & _ & _ & _ & _ & _ & _ & Hrc & Hpq)
    end.
    rewrite Hpq. sys_cbn. split; [|eauto].
    destruct Hs as [Hcount Hroom]. unfold arrivals_counted. rewrite Hrc, Hpq. sys_cbn.
    rewrite Int_incr_small.
    + rewrite length_app. cbn. lia.
    + unfold Int.min_int. lia.
  - split; [|exists []; by rewrite app_nil_r].
    apply (arrivals_counted_fields m s); [done..|].
    eapply arrivals_counted_weaken; [|exact Hs]. lia.
  - assert (rawMaterialCount (completeStage product s) = rawMaterialCount s /\
            productQueue (completeStage product s) = productQueue s) as [Hrc Hpq].
    { unfold completeStage. cbv zeta. case_match; [|done].
      match goal with |- context [handleNextStage ?p ?s1] =>
        destruct (handleNextStage_frame s1 p) as (_ & _ & _ & _ & _ & _ & _ & Hrc & Hpq)
      end. by rewrite Hrc, Hpq. }
    split; [|exists []; by rewrite app_nil_r].
    apply (arrivals_counted_fields m s); [done..|].
    eapply arrivals_counted_weaken; [|exact Hs]. lia.
  - split; [|exists []; by rewrite app_nil_r].
    apply (arrivals_counted_fields m s); [done..|].
    eapply arrivals_counted_weaken; [|exact Hs]. lia.
  - split; [|exists []; by rewrite app_nil_r].
    apply (arrivals_counted_fields m s); [done..|].
    eapply arrivals_counted_weaken; [|exact Hs]. lia.
Qed.

Lemma arrivals_counted_run_loop k m runTime s :
  0 <= m -> arrivals_counted (m + Z.of_nat k) s ->
  arrivals_counted m (run_loop k runTime s) /\
  exists units, productQueue (run_loop k runTime s) = productQueue s ++ units.
Proof.
  revert s m. induction k as [|k IH]; intros s m Hm Hs.
  - cbn. rewrite Z.add_0_r in Hs. split; [done|]. exists []. by rewrite app_nil_r.
  - rewrite run_loop_S. destruct (loop_test runTime s).
    + assert (arrivals_counted (m + Z.of_nat k) (loop_body s) /\
              exists units, productQueue (loop_body s) = productQueue s ++ units)
        as [Hs' [units1 Hu1]].
      { unfold loop_body. destruct (PQ.top (eventQueue s)) as [e|].
        - match goal with |- context [invoke ?a ?s1] =>
            apply (arrivals_counted_invoke (m + Z.of_nat k) s1 a) end; [lia|].
          apply (arrivals_counted_fields _ s); [done..|].
          replace (m + Z.of_nat k + 1) with (m + Z.of_nat (S k)) by lia. done.
        - split; [|exists []; by rewrite app_nil_r].
          eapply arrivals_counted_weaken; [|exact Hs]. lia. }
      destruct (IH _ m Hm Hs') as [Hfin [units2 Hu2]]. split; [done|].
      exists (units1 ++ units2). by rewrite Hu2, Hu1, app_assoc.
    + split; [|exists []; by rewrite app_nil_r].
      eapply arrivals_counted_weaken; [|exact Hs]. lia.
Qed.

(** X11.  [productQueue] is only ever appended to, one product per arrival,
    and [rawMaterialCount] counts them: in a run of [n] iterations from a
    state where the count is the length of the queue (at most [INT_MAX - n]),
    the queue keeps what it held and the count stays its length. *)
Theorem X11_arrivals_are_counted s (n k : nat) (runTime : Q) :
  arrivals_counted (Z.of_nat n) s -> (k <= n)%nat ->
  rawMaterialCount (run_loop k runTime s)
    = Z.of_nat (length (productQueue (run_loop k runTime s))) /\
  exists units, productQueue (run_loop k runTime s) = productQueue s ++ units.
Proof.
  intros Hs Hk.
  destruct (arrivals_counted_run_loop k 0 runTime s) as [[Hcount _] Hunits];
    [lia| |done].
  eapply arrivals_counted_weaken; [|exact Hs]. lia.
Qed.

End Counters.

Lemma fresh_counters_consistent g0 (capacities : gmap string Z) m :
  m <= Int.max_int ->
  counters_consistent m (seedEvents (R := Scripted []) (setResources capacities (fresh g0))).
Proof.
  intros Hm. rewrite seedEvents_eq. unfold counters_consistent. sys_cbn. cbn.
  split; [by vm_compute|]. split; [|lia].
  repeat (apply map_Forall_insert_2; [lia|]). apply map_Forall_empty.
Qed.

Lemma X10_finished_counters_add_up_witness :
  finishedProducts
    (run_loop (R := Scripted []) 12 10
       (seedEvents (R := Scripted []) (setResources capacities_by_stage (fresh [1; 100]%Q))))
  = sum_counts
      (finishedProductsPerType
         (run_loop (R := Scripted []) 12 10
            (seedEvents (R := Scripted [])
               (setResources capacities_by_stage (fresh [1; 100]%Q))))).
Proof.
  refine (@X10_finished_counters_add_up (list Q) (Scripted []) _ 12%nat 12%nat 10%Q _ _);
    [|lia].
  apply fresh_counters_consistent. unfold Int.max_int. lia.
Defined.

Lemma X11_arrivals_are_counted_witness :
  rawMaterialCount
    (run_loop (R := Scripted []) 12 10
       (seedEvents (R := Scripted []) (fresh [])))
  = Z.of_nat (length (productQueue
       (run_loop (R := Scripted []) 12 10
          (seedEvents (R := Scripted []) (fresh []))))).
Proof.
  refine (proj1 (@X11_arrivals_are_counted (list Q) (Scripted []) _ 12%nat 12%nat 10%Q _ _));
    [|lia].
  rewrite seedEvents_eq. split; [reflexivity|]. sys_cbn. vm_compute. discriminate.
Defined.

(** ** A resource taken for the last stage and given back *)

Section RoundTrip.

Context {G : Type} `{RandomSource G}.
Implicit Types (s : ManufacturingSystem G) (product : Product).

(** X12.  Acquisition and release undo each other on the counts: when a unit
    takes the resource of the last stage of its plan and [completeStage] then
    runs on a state with the counts and plans that the acquisition left, the
    available counts are again exactly those before the acquisition, the unit
    is counted as finished, once overall and once for its type, and no event
    is scheduled. *)
Theorem X12_last_stage_round_trip s s2 product times :
  processingTimes s !! ptype product = Some times ->
  0 <= intermediateStage product ->
  Z.of_nat (length times) = intermediateStage product + 1 ->
  intermediateStage product < Int.max_int ->
  0 < map_at 0 (availableResources s) (getStageName (intermediateStage product))
    <= Int.max_int ->
  availableResources s2 = availableResources (handleNextStage product s) ->
  processingTimes s2 = processingTimes (handleNextStage product s) ->
  availableResources (completeStage product s2) = availableResources s /\
  finishedProducts (completeStage product s2) = Int.incr (finishedProducts s2) /\
  finishedProductsPerType (completeStage product s2)
    = <[ptype product :=
          Int.incr (map_at 0 (finishedProductsPerType s2) (ptype product))]>
        (finishedProductsPerType s2) /\
  eventQueue (completeStage product s2) = eventQueue s2.
Proof.
  intros Ht H0 Hlen Hmax Hav Hav2 Hpt2.
  assert (stage_in_range product times = true) as Hin.
  { unfold stage_in_range, Int.to_size_t. apply Z.ltb_lt.
    unfold Int.max_int in Hmax. rewrite Z.mod_small by lia. lia. }
  rewrite (handleNextStage_acquired s product times Ht Hin (proj1 Hav)) in Hav2, Hpt2.
  cbv zeta in Hav2, Hpt2. cbn in Hav2.
  assert (processingTimes s2 = processingTimes s) as Hpt.
  { rewrite Hpt2. by destruct (intermediateStage product =? 0). }
  clear Hpt2.
  unfold completeStage. cbv zeta. sys_cbn. cbn [ptype intermediateStage].
  rewrite Hpt, (map_touch_present _ _ _ _ Ht), (map_at_present _ _ _ _ Ht).
  assert (stage_in_range
            {| ptype := ptype product;
               intermediateStage := Int.incr (intermediateStage product) |} times
          = false) as ->.
  { unfold stage_in_range, Int.to_size_t. cbn [intermediateStage].
    rewrite Int_incr_small by (unfold Int.min_int; lia).
    apply Z.ltb_ge. unfold Int.max_int in Hmax. rewrite Z.mod_small by lia. lia. }
  sys_cbn. split; [|done].
  rewrite Hav2, map_at_insert_eq, insert_insert_eq.
  rewrite Int_decr_small by (unfold Int.min_int; lia).
  rewrite Int_incr_small by (unfold Int.min_int; lia).
  replace (map_at 0 (availableResources s) (getStageName (intermediateStage product))
           - 1 + 1)
    with (map_at 0 (availableResources s) (getStageName (intermediateStage product)))
    by lia.
  apply insert_id. unfold map_at in *.
  destruct (availableResources s !! getStageName (intermediateStage product));
    [done|cbn in Hav; lia].
Qed.

End RoundTrip.

Lemma X12_last_stage_round_trip_witness :
  availableResources
    (completeStage (productA 3)
       (handleNextStage (productA 3) (setResources capacities_by_stage (fresh []))))
  = capacities_by_stage.
Proof.
  refine (proj1 (@X12_last_stage_round_trip (list Q)
                   (setResources capacities_by_stage (fresh []))
                   (handleNextStage (productA 3)
                      (setResources capacities_by_stage (fresh [])))
                   (productA 3) [2; 3 # 2; 1; 1]%Q _ _ _ _ _ _ _));
    try reflexivity; try (vm_compute; intuition discriminate).
Defined.

(** ** Only "ProductA" is ever produced *)

Lemma elem_of_push_all e es c : e ∈ push_all es c <-> e ∈ es \/ e ∈ c.
Proof. rewrite push_all_perm. apply elem_of_app. Qed.

Section OnlyProductA.

Context {G : Type} `{RandomSource G}.
Implicit Types (s : ManufacturingSystem G) (product : Product).

Lemma only_ProductA_handleNextStage s product :
  ptype product = "ProductA" -> only_ProductA s ->
  only_ProductA (handleNextStage product s).
Proof.
  intros Hty (Hheap & Hq & Hc & Hp).
  destruct (handleNextStage_pushes s product) as (es & Heq & _ & Hes).
  destruct (handleNextStage_frame s product) as (_ & _ & _ & _ & Hcon & _ & _ & _ & Hpq).
  unfold only_ProductA. rewrite Heq, Hcon, Hpq. repeat split; try done.
  - by apply push_all_heap.
  - intros e [He|He]%elem_of_push_all; [|by apply Hq].
    destruct (Hes e He) as [pt ->]. exact Hty.
Qed.

Lemma only_ProductA_push s t ty a :
  action_of_ProductA a -> only_ProductA s -> only_ProductA (scheduleEvent t ty a s).
Proof.
  intros Ha (Hheap & Hq & Hc & Hp). repeat split; sys_cbn; try done.
  - by apply push_heap.
  - intros e [->|He]%elem_of_push; [done|]. by apply Hq.
Qed.

Lemma only_ProductA_print s line :
  line_of_ProductA line -> only_ProductA s -> only_ProductA (print line s).
Proof.
  intros Hl (Hheap & Hq & Hc & Hp). repeat split; sys_cbn; try done.
  intros l [Hl'|Hl']%elem_of_app; [by apply Hc|].
  by apply list_elem_of_singleton in Hl' as ->.
Qed.

Lemma only_ProductA_fields s s' :
  eventQueue s' = eventQueue s -> console s' = console s ->
  productQueue s' = productQueue s ->
  only_ProductA s -> only_ProductA s'.
Proof. unfold only_ProductA. by intros -> -> ->. Qed.

Lemma only_ProductA_invoke s a :
  only_ProductA s -> action_of_ProductA a ->
  only_ProductA (invoke a s) /\
  forall ty, ty <> "ProductA" ->
    finishedProductsPerType (invoke a s) !! ty = finishedProductsPerType s !! ty.
Proof.
  intros Hs Ha. destruct a; cbn [invoke]; cbn in Ha.
  - subst productType. rewrite handleRawMaterialArrival_eq. split.
    + apply only_ProductA_handleNextStage; [done|].
      apply only_ProductA_push; [done|].
      destruct Hs as (Hheap & Hq & Hc & Hp). repeat split; sys_cbn; try done.
      * intros l [Hl'|Hl']%elem_of_app; [by apply Hc|].
        by apply list_elem_of_singleton in Hl' as ->.
      * intros p [Hp'|Hp']%elem_of_app; [by apply Hp|].
        by apply list_elem_of_singleton in Hp' as ->.
    + intros ty _.
      match goal with |- context [handleNextStage ?p ?s1] =>
        destruct (handleNextStage_frame s1 p) as (_ & _ & _ & _ & _ & _ & -> & _)
      end. done.
  - split; [|done]. unfold setupDone. cbv zeta.
    apply only_ProductA_push; [done|].
    by apply (only_ProductA_fields s).
  - unfold completeStage. cbv zeta. case_match.
    + split.
      * apply only_ProductA_handleNextStage; [done|].
        eapply only_ProductA_fields;
          [..|apply (only_ProductA_print s
                       (LogCompleted (getStageName (intermediateStage product))
                          (ptype product) (currentTime s)) Ha Hs)]; done.
      * intros ty _.
        match goal with |- context [handleNextStage ?p ?s1] =>
          destruct (handleNextStage_frame s1 p) as (_ & _ & _ & _ & _ & _ & -> & _)
        end. done.
    + split.
      * eapply only_ProductA_fields;
          [..|apply (only_ProductA_print s
                       (LogCompleted (getStageName (intermediateStage product))
                          (ptype product) (currentTime s)) Ha Hs)]; done.
      * intros ty Hty. sys_cbn. cbn [ptype]. rewrite Ha.
        by rewrite lookup_insert_ne.
  - split; [|done]. unfold handleMaintenance. cbv zeta.
    eapply only_ProductA_fields;
      [..|apply (only_ProductA_print s (LogMaintenance resource (currentTime s)) I Hs)];
      done.
  - split; [|done]. unfold handleShiftChange. cbv zeta.
    apply only_ProductA_push; [done|].
    eapply only_ProductA_fields;
      [..|apply (only_ProductA_print s (LogShiftChange (currentTime s)) I Hs)]; done.
Qed.

Lemma only_ProductA_loop_body s :
  only_ProductA s ->
  only_ProductA (loop_body s) /\
  forall ty, ty <> "ProductA" ->
    finishedProductsPerType (loop_body s) !! ty = finishedProductsPerType s !! ty.
Proof.
  intros Hs. unfold loop_body.
  destruct (PQ.top (eventQueue s)) as [e|] eqn:He; [|done].
  destruct Hs as (Hheap & Hq & Hc & Hp).
  apply (only_ProductA_invoke
           (set_currentTime (time e) (set_eventQueue (PQ.pop (eventQueue s)) s))).
  - repeat split; sys_cbn; try done.
    + by apply pop_heap.
    + intros e' He'. apply Hq. by apply elem_of_pop.
  - apply Hq. destruct (eventQueue s); [done|]. injection He as <-. by left.
Qed.

Lemma only_ProductA_run_loop n runTime s :
  only_ProductA s ->
  only_ProductA (run_loop n runTime s) /\
  forall ty, ty <> "ProductA" ->
    finishedProductsPerType (run_loop n runTime s) !! ty
      = finishedProductsPerType s !! ty.
Proof.
  revert s. induction n as [|n IH]; intros s Hs; [done|].
  rewrite run_loop_S. destruct (loop_test runTime s); [|done].
  destruct (only_ProductA_loop_body s Hs) as [H1 H2].
  destruct (IH _ H1) as [H3 H4]. split; [done|].
  intros ty Hty. by rewrite H4, H2.
Qed.

(** X13.  [runSimulation] only ever makes "ProductA": started on a system in
    which every pending event, console line and queued unit (if any) is about
    "ProductA", every event, line and unit of the run is, and the finished
    count of every other product type is at the end what it was at the
    start. *)
Theorem X13_only_ProductA_is_produced s (n : nat) (runTime : Q) :
  only_ProductA s ->
  only_ProductA (runSimulation n runTime s) /\
  forall ty, ty <> "ProductA" ->
    finishedProductsPerType (runSimulation n runTime s) !! ty
      = finishedProductsPerType s !! ty.
Proof.
  intros Hs. unfold runSimulation.
  destruct (only_ProductA_run_loop n runTime (seedEvents s)) as [H1 H2].
  - rewrite seedEvents_eq.
    apply only_ProductA_push; [done|]. apply only_ProductA_push; [done|].
    by apply (only_ProductA_fields s).
  - split; [done|]. intros ty Hty. rewrite (H2 ty Hty).
    by rewrite seedEvents_eq.
Qed.

End OnlyProductA.

Lemma only_ProductA_new {G : Type} `{RandomSource G} epoch (capacities : gmap string Z) :
  only_ProductA (setResources capacities (ManufacturingSystem_new epoch)).
Proof.
  repeat split; cbn.
  - apply is_heap_nil.
  - intros e He. by apply elem_of_nil in He.
  - intros l Hl. by apply elem_of_nil in Hl.
  - intros p Hp. by apply elem_of_nil in Hp.
Qed.

Lemma X13_only_ProductA_is_produced_witness :
  finishedProductsPerType
    (runSimulation (R := Scripted []) 12 10
       (setResources capacities_by_stage (fresh [1; 100]%Q))) !! "ProductB"
  = finishedProductsPerType
      (setResources capacities_by_stage (fresh [1; 100]%Q)) !! "ProductB".
Proof.
  refine (proj2 (@X13_only_ProductA_is_produced (list Q) (Scripted [])
                   (setResources capacities_by_stage (fresh [1; 100]%Q))
                   12%nat 10%Q _) "ProductB" _); [|done].
  apply (only_ProductA_new (H := Scripted [1; 100]%Q)).
Defined.

(** ** What the scenarios of [main] record *)

Section IdleLine.

Context {G : Type} `{RandomSource G}.
Implicit Types (s : ManufacturingSystem G) (product : Product).

Lemma idle_line_fields s s' :
  eventQueue s' = eventQueue s -> availableResources s' = availableResources s ->
  resources s' = resources s -> processingTimes s' = processingTimes s ->
  resourceUsageTime s' = resourceUsageTime s ->
  idle_line s -> idle_line s'.
Proof. unfold idle_line, stalled. by intros -> -> -> -> ->. Qed.

Lemma idle_line_push s t ty a :
  generator_action a ->
  (forall productType, a = ActRawMaterialArrival productType -> productType = "ProductA") ->
  idle_line s -> idle_line (scheduleEvent t ty a s).
Proof.
  intros Hgen Ha (Hst & Hq & Hpt & Hus & Hav).
  split; [by apply stalled_schedule|]. split; [|done].
  intros e productType [->|He]%elem_of_push; [apply Ha|by apply Hq].
Qed.

Lemma waiting_counts_fields m s s' :
  resourceWaitingTime s' = resourceWaitingTime s ->
  rawMaterialCount s' = rawMaterialCount s ->
  waiting_counts m s -> waiting_counts m s'.
Proof. unfold waiting_counts. by intros -> ->. Qed.

Lemma waiting_counts_weaken m m' s :
  m' <= m -> waiting_counts m s -> waiting_counts m' s.
Proof. intros Hle (H1 & H2 & H3). repeat split; [done..|lia|lia]. Qed.

(** An arrival on the idle line: the unit waits for machining, 2.0 time
    units are recorded, and nothing else happens to it. *)
Lemma idle_line_arrival s :
  idle_line s ->
  idle_line (handleRawMaterialArrival "ProductA" s) /\
  forall m, 0 <= m -> waiting_counts (m + 1) s ->
    waiting_counts m (handleRawMaterialArrival "ProductA" s).
Proof.
  intros Hs. rewrite handleRawMaterialArrival_eq.
  set (s1 := scheduleEvent _ _ _ _).
  assert (idle_line s1) as Hs1.
  { apply idle_line_push; [done|by intros ? [= <-]|]. by apply (idle_line_fields s). }
  destruct Hs1 as (Hst1 & Hq1 & Hpt1 & Hus1 & Hav1).
  assert (map_at 0 (availableResources s1) "machining" <= 0) as Hno.
  { destruct Hst1 as (_ & _ & Hav & _). apply (Hav 0). }
  rewrite (handleNextStage_blocked s1
             {| ptype := "ProductA"; intermediateStage := 0 |}
             [2; 3 # 2; 1; 1]%Q Hpt1 eq_refl Hno).
  cbn [ptype intermediateStage getStageName Z.to_nat nth].
  split.
  - destruct Hst1 as (Hheap & Hgen & Hav & Hres).
    repeat split; sys_cbn; try done.
    + intros i. rewrite map_at_touch. apply Hav.
    + intros r. rewrite map_at_touch. apply Hav1.
  - intros m Hm (Hw & Hother & Hcount).
    subst s1. unfold waiting_counts. sys_cbn.
    rewrite Int_incr_small by (unfold Int.min_int; lia).
    split; [|split].
    + rewrite map_at_insert_eq, Hw, inject_Z_plus.
      change (inject_Z 1) with 1%Q. change (Z.to_nat 0) with 0%nat. cbv iota. ring.
    + intros r Hr. rewrite map_at_insert_ne by done. by apply Hother.
    + lia.
Qed.

Lemma idle_line_invoke s a :
  idle_line s -> generator_action a ->
  (forall productType, a = ActRawMaterialArrival productType -> productType = "ProductA") ->
  idle_line (invoke a s) /\
  forall m, 0 <= m -> waiting_counts (m + 1) s -> waiting_counts m (invoke a s).
Proof.
  intros Hs Hgen Ha. destruct a; try done; cbn [invoke].
  - rewrite (Ha productType eq_refl). by apply idle_line_arrival.
  - split.
    + unfold handleShiftChange. cbv zeta. apply idle_line_push; [done..|].
      destruct Hs as ((Hheap & Hg & Hav & Hres) & Hq & Hpt & Hus & Hrd).
      repeat split; sys_cbn; done.
    + intros m Hm Hw. apply (waiting_counts_fields m s); [done..|].
      eapply waiting_counts_weaken; [|exact Hw]. lia.
Qed.

Lemma idle_line_loop_body s :
  idle_line s ->
  idle_line (loop_body s) /\
  forall m, 0 <= m -> waiting_counts (m + 1) s -> waiting_counts m (loop_body s).
Proof.
  intros Hs. unfold loop_body.
  destruct (PQ.top (eventQueue s)) as [e|] eqn:He.
  - assert (e ∈ eventQueue s) as Hin.
    { destruct (eventQueue s); [done|]. injection He as <-. by left. }
    destruct Hs as ((Hheap & Hg & Hav & Hres) & Hq & Hpt & Hus & Hrd).
    destruct (idle_line_invoke
                (set_currentTime (time e) (set_eventQueue (PQ.pop (eventQueue s)) s))
                (action e)) as [H1 H2].
    + repeat split; sys_cbn; try done.
      * by apply pop_heap.
      * intros e' He'. apply Hg. by apply elem_of_pop.
      * intros e' ty He'. apply Hq. by apply elem_of_pop.
    + by apply Hg.
    + intros ty. by apply Hq.
    + split; [done|]. intros m Hm Hw. apply H2; [done|].
      by apply (waiting_counts_fields (m + 1) s).
  - split; [done|]. intros m Hm Hw. eapply waiting_counts_weaken; [|exact Hw]. lia.
Qed.

Lemma idle_line_run_loop n runTime s :
  idle_line s ->
  idle_line (run_loop n runTime s) /\
  forall m, 0 <= m -> waiting_counts (m + Z.of_nat n) s ->
    waiting_counts m (run_loop n runTime s).
Proof.
  revert s. induction n as [|n IH]; intros s Hs.
  - split; [done|]. intros m _ Hw. cbn. by rewrite Z.add_0_r in Hw.
  - rewrite run_loop_S. destruct (loop_test runTime s).
    + destruct (idle_line_loop_body s Hs) as [H1 H2].
      destruct (IH _ H1) as [H3 H4]. split; [done|].
      intros m Hm Hw. apply H4; [done|]. apply H2; [lia|].
      replace (m + Z.of_nat n + 1) with (m + Z.of_nat (S n)) by lia. done.
    + split; [done|]. intros m Hm Hw. eapply waiting_counts_weaken; [|exact Hw]. lia.
Qed.

Lemma idle_line_scenario epoch machineCount operatorCount n runTime :
  idle_line (runScenario epoch machineCount operatorCount n runTime) /\
  forall m, 0 <= m -> m + Z.of_nat n <= Int.max_int ->
    waiting_counts m (runScenario epoch machineCount operatorCount n runTime).
Proof.
  unfold runScenario, runSimulation.
  set (s0 := setResources _ (ManufacturingSystem_new epoch)).
  assert (idle_line s0) as Hs0.
  { split; [apply stalled_scenario|]. repeat split; try done.
    intros e ty He. by apply elem_of_nil in He. }
  assert (idle_line (seedEvents s0)) as Hseed.
  { rewrite seedEvents_eq.
    apply idle_line_push; [done|done|].
    apply idle_line_push; [done|by intros ? [= <-]|].
    by apply (idle_line_fields s0). }
  destruct (idle_line_run_loop n runTime _ Hseed) as [H1 H2].
  split; [done|]. intros m Hm Hroom. apply H2; [done|].
  rewrite seedEvents_eq. unfold waiting_counts. sys_cbn. cbn.
  split; [|split].
  - rewrite (map_at_absent _ _ "machining") by done. reflexivity.
  - intros r Hr. rewrite !map_at_insert. by repeat case_decide.
  - lia.
Qed.

(** X14.  In every scenario of [runScenario], at every point of the run, no
    busy time has been recorded (the usage map is as constructed, machines
    and operators at 0), and every available count reads as its capacity:
    no unit of any resource is ever taken. *)
Theorem X14_scenario_takes_no_resource
    (epoch machineCount operatorCount : Z) (n : nat) (runTime : Q) :
  log_resourceUsageTime (logData (runScenario epoch machineCount operatorCount n runTime))
    = <["operators" := 0%Q]> (<["machines" := 0%Q]> ∅) /\
  forall r,
    map_at 0 (availableResources (runScenario epoch machineCount operatorCount n runTime)) r
    = map_at 0 (resources (runScenario epoch machineCount operatorCount n runTime)) r.
Proof.
  destruct (idle_line_scenario epoch machineCount operatorCount n runTime)
    as [(_ & _ & _ & Hus & Hav) _].
  split; done.
Qed.

(** X15.  In every scenario of [runScenario], after at most [INT_MAX] loop
    iterations, the waiting time recorded for machining is 2.0 (the first
    stage of "ProductA") times the number of arrivals, and the waiting time
    of every other resource or stage reads 0. *)
Theorem X15_scenario_waiting_time
    (epoch machineCount operatorCount : Z) (n : nat) (runTime : Q) :
  Z.of_nat n <= Int.max_int ->
  (map_at 0%Q
     (resourceWaitingTime (runScenario epoch machineCount operatorCount n runTime))
     "machining"
   == 2 * inject_Z
            (rawMaterialCount (runScenario epoch machineCount operatorCount n runTime)))%Q /\
  forall r, r <> "machining" ->
    (map_at 0%Q
       (resourceWaitingTime (runScenario epoch machineCount operatorCount n runTime)) r
     == 0)%Q.
Proof.
  intros Hn.
  destruct (idle_line_scenario epoch machineCount operatorCount n runTime) as [_ Hw].
  destruct (Hw 0) as (H1 & H2 & _); [lia|lia|]. split; done.
Qed.

End IdleLine.

Lemma X15_scenario_waiting_time_witness :
  (map_at 0%Q
     (resourceWaitingTime (runScenario (R := Scripted []) 0 10 5 1002 1000)) "machining"
   == 2 * inject_Z (rawMaterialCount (runScenario (R := Scripted []) 0 10 5 1002 1000)))%Q.
Proof.
  refine (proj1 (@X15_scenario_waiting_time (list Q) (Scripted []) 0 10 5 1002%nat 1000%Q _)).
  vm_compute. discriminate.
Defined.

(** ** Breakdowns never happen in a run *)

Section NoBreakdown.

Context {G : Type} `{RandomSource G}.
Implicit Types (s : ManufacturingSystem G) (product : Product).

Lemma no_breakdown_fields s s' :
  eventQueue s' = eventQueue s -> console s' = console s ->
  no_breakdown s -> no_breakdown s'.
Proof. unfold no_breakdown. by intros -> ->. Qed.

Lemma no_breakdown_push s t ty a :
  (forall resource, a <> ActMaintenance resource) ->
  no_breakdown s -> no_breakdown (scheduleEvent t ty a s).
Proof.
  intros Ha (Hheap & Hq & Hc). split; [by apply push_heap|]. split; [|done].
  intros e resource [->|He]%elem_of_push; [apply Ha|by apply Hq].
Qed.

Lemma no_breakdown_print s line :
  ~ breakdown_line line -> no_breakdown s -> no_breakdown (print line s).
Proof.
  intros Hl (Hheap & Hq & Hc). split; [done|]. split; [done|].
  intros l [Hl'|Hl']%elem_of_app; [by apply Hc|].
  by apply list_elem_of_singleton in Hl' as ->.
Qed.

Lemma no_breakdown_handleNextStage s product :
  no_breakdown s -> no_breakdown (handleNextStage product s).
Proof.
  intros (Hheap & Hq & Hc).
  destruct (handleNextStage_pushes s product) as (es & Heq & _ & Hes).
  destruct (handleNextStage_frame s product) as (_ & _ & _ & _ & Hcon & _).
  unfold no_breakdown. rewrite Heq, Hcon.
  split; [by apply push_all_heap|]. split; [|done].
  intros e resource [He|He]%elem_of_push_all; [|by apply Hq].
  destruct (Hes e He) as [pt ->]. done.
Qed.

Lemma no_breakdown_invoke s a :
  no_breakdown s -> (forall resource, a <> ActMaintenance resource) ->
  no_breakdown (invoke a s).
Proof.
  intros Hs Ha. destruct a; cbn [invoke].
  - rewrite handleRawMaterialArrival_eq.
    apply no_breakdown_handleNextStage, no_breakdown_push; [done|].
    eapply no_breakdown_fields;
      [..|apply (no_breakdown_print s (LogArrival productType (currentTime s)))];
      try done. by intros [].
  - unfold setupDone. cbv zeta. apply no_breakdown_push; [done|].
    by apply (no_breakdown_fields s).
  - unfold completeStage. cbv zeta.
    assert (no_breakdown
              (print (LogCompleted (getStageName (intermediateStage product))
                        (ptype product) (currentTime s)) s)) as Hp.
    { apply no_breakdown_print; [by intros []|done]. }
    case_match.
    + apply no_breakdown_handleNextStage.
      eapply no_breakdown_fields; [..|exact Hp]; done.
    + eapply no_breakdown_fields; [..|exact Hp]; done.
  - by destruct (Ha resource).
  - unfold handleShiftChange. cbv zeta. apply no_breakdown_push; [done|].
    eapply no_breakdown_fields;
      [..|apply (no_breakdown_print s (LogShiftChange (currentTime s)))];
      try done. by intros [].
Qed.

Lemma no_breakdown_loop_body s : no_breakdown s -> no_breakdown (loop_body s).
Proof.
  intros Hs. unfold loop_body.
  destruct (PQ.top (eventQueue s)) as [e|] eqn:He; [|done].
  destruct Hs as (Hheap & Hq & Hc).
  apply no_breakdown_invoke.
  - split; [by apply pop_heap|]. split; [|done].
    intros e' resource He'. apply Hq. by apply elem_of_pop.
  - intros resource. apply Hq.
    destruct (eventQueue s); [done|]. injection He as <-. by left.
Qed.

Lemma no_breakdown_run_loop n runTime s :
  no_breakdown s -> no_breakdown (run_loop n runTime s).
Proof.
  revert s. induction n as [|n IH]; intros s Hs; [done|].
  rewrite run_loop_S. destruct (loop_test runTime s); [|done].
  by apply IH, no_breakdown_loop_body.
Qed.

(** X16.  Nothing in a run ever breaks down: [runSimulation], started with
    no maintenance pending and none reported, never runs [handleBreakdown] or
    [handleMaintenance]; no maintenance event is ever pending and the console
    never gets a breakdown or a maintenance line. *)
Theorem X16_no_breakdown_in_a_run s (n : nat) (runTime : Q) :
  no_breakdown s -> no_breakdown (runSimulation n runTime s).
Proof.
  intros Hs. unfold runSimulation. apply no_breakdown_run_loop.
  rewrite seedEvents_eq.
  apply no_breakdown_push; [done|]. apply no_breakdown_push; [done|].
  by apply (no_breakdown_fields s).
Qed.

End NoBreakdown.

Lemma X16_no_breakdown_in_a_run_witness :
  no_breakdown
    (runSimulation (R := Scripted []) 12 10
       (setResources capacities_by_stage (fresh [1; 100]%Q))).
Proof.
  apply (@X16_no_breakdown_in_a_run (list Q) (Scripted [])).
  split; [apply is_heap_nil|]. split.
  - intros e resource He. by apply elem_of_nil in He.
  - intros line Hl. by apply elem_of_nil in Hl.
Defined.
